(** * gh-spec-verify: the Claude provider of package [ai]

    A shallow embedding of [internal/ai/claude.go] together with models of
    the Go library calls it makes ([regexp], [encoding/json], [net/http],
    [fmt]), followed by the properties of the verification client.

    Go strings are byte sequences: they are modelled as [string], whose
    characters are the bytes.  Go's [int] is modelled as [Z]. *)

From Stdlib Require Import ZArith NArith Lia Bool List.
From Stdlib Require Import Strings.String Strings.Ascii.
From stdpp Require Import base option gmap strings.
Import ListNotations.

Open Scope string_scope.

(* ================================================================== *)
(** * Part I: definitions                                              *)
(* ================================================================== *)

(** ** Bytes and byte strings *)

Module str.

(** The numeric value of a byte. *)
Definition code (c : ascii) : N := N_of_ascii c.

Definition byte_of (n : N) : ascii := ascii_of_N n.

(** [lo <= c <= hi] on bytes. *)
Definition between (lo hi c : ascii) : bool :=
  (code lo <=? code c)%N && (code c <=? code hi)%N.

Definition dquote : ascii := "034".
Definition backslash : ascii := "092".

(** One-byte string. *)
Definition of_byte (c : ascii) : string := String c EmptyString.

(** [strings.HasPrefix]. *)
Fixpoint HasPrefix (s prefix : string) {struct prefix} : bool :=
  match prefix, s with
  | EmptyString, _ => true
  | String p prefix', String c s' => Ascii.eqb c p && HasPrefix s' prefix'
  | String _ _, EmptyString => false
  end.

(** [strings.CutPrefix]: the rest of [s] after [prefix], when [s] starts
    with it. *)
Fixpoint CutPrefix (s prefix : string) {struct prefix} : option string :=
  match prefix, s with
  | EmptyString, _ => Some s
  | String p prefix', String c s' =>
      if Ascii.eqb c p then CutPrefix s' prefix' else None
  | String _ _, EmptyString => None
  end.

(** [strings.Index]: the offset of the first occurrence of [sub] in [s];
    [None] stands for Go's -1. *)
Fixpoint Index (s sub : string) : option nat :=
  if HasPrefix s sub then Some 0
  else match s with
       | EmptyString => None
       | String _ s' => option_map S (Index s' sub)
       end.

(** [strings.Contains]. *)
Definition Contains (s sub : string) : bool :=
  match Index s sub with Some _ => true | None => false end.

(** The slices [s[:n]] and [s[n:]] (saturating at the end of [s]). *)
Fixpoint take (n : nat) (s : string) : string :=
  match n, s with
  | S n', String c s' => String c (take n' s')
  | _, _ => EmptyString
  end.

Fixpoint drop (n : nat) (s : string) : string :=
  match n, s with
  | S n', String _ s' => drop n' s'
  | _, _ => s
  end.

(** The bytes of [s] that precede its suffix [rest]. *)
Definition consumed (s rest : string) : string :=
  take (String.length s - String.length rest) s.

Fixpoint all (p : ascii -> bool) (s : string) : bool :=
  match s with
  | EmptyString => true
  | String c s' => p c && all p s'
  end.

(** Dropping the longest prefix, resp. suffix, of bytes satisfying [p]. *)
Fixpoint TrimLeftFunc (p : ascii -> bool) (s : string) : string :=
  match s with
  | String c s' => if p c then TrimLeftFunc p s' else s
  | EmptyString => EmptyString
  end.

Fixpoint TrimRightFunc (p : ascii -> bool) (s : string) : string :=
  match s with
  | String c s' =>
      match TrimRightFunc p s' with
      | EmptyString => if p c then EmptyString else of_byte c
      | t => String c t
      end
  | EmptyString => EmptyString
  end.

Definition TrimFunc (p : ascii -> bool) (s : string) : string :=
  TrimRightFunc p (TrimLeftFunc p s).

(** Replace every byte [a] by [b]; used to write JSON test data with
    single quotes in place of double quotes. *)
Fixpoint replace_byte (a b : ascii) (s : string) : string :=
  match s with
  | EmptyString => EmptyString
  | String c s' => String (if Ascii.eqb c a then b else c) (replace_byte a b s')
  end.

Definition q (s : string) : string := replace_byte "'" dquote s.

End str.

(** ** [strconv]: decimal integers *)

Module strconv.

Definition digit (d : N) : ascii := str.byte_of (48 + d).

Fixpoint utoa (fuel : nat) (n : N) (acc : string) : string :=
  match fuel with
  | O => acc
  | S fuel' =>
      let acc' := String (digit (n mod 10)) acc in
      if (n <? 10)%N then acc' else utoa fuel' (n / 10) acc'
  end.

(** [strconv.Itoa], also the rendering of the verb [%d]. *)
Definition Itoa (i : Z) : string :=
  let n := Z.to_N (Z.abs i) in
  let digits := utoa (S (N.to_nat (N.log2 n))) n EmptyString in
  if (i <? 0)%Z then String "-" digits else digits.

Definition is_digit (c : ascii) : bool := str.between "0" "9" c.

Fixpoint parse_digits (s : string) (acc : N) : option N :=
  match s with
  | EmptyString => Some acc
  | String c s' =>
      if is_digit c then parse_digits s' (10 * acc + (str.code c - 48))
      else None
  end.

Definition minInt64 : Z := - 2 ^ 63.
Definition maxInt64 : Z := 2 ^ 63 - 1.

(** [strconv.ParseInt(s, 10, 64)]: an optional sign, then one or more
    decimal digits, and the value must fit in 64 bits.  [None] stands
    for a non-nil error. *)
Definition ParseInt (s : string) : option Z :=
  let '(neg, body) :=
    match s with
    | String "-" s' => (true, s')
    | String "+" s' => (false, s')
    | _ => (false, s)
    end in
  match body with
  | EmptyString => None
  | _ =>
      match parse_digits body 0 with
      | None => None
      | Some n =>
          let v := if neg then (- Z.of_N n)%Z else Z.of_N n in
          if (minInt64 <=? v)%Z && (v <=? maxInt64)%Z then Some v else None
      end
  end.

End strconv.

(** ** Go's [error] values *)

Inductive error : Type :=
| errorString (s : string)
    (** [errors.New], and [fmt.Errorf] without the verb [%w] *)
| wrapError (msg : string) (err : error)
    (** [fmt.Errorf] with [%w]: the formatted text and the wrapped cause *)
| SyntaxError (msg : string) (Offset : Z)
    (** [*json.SyntaxError] *)
| UnmarshalTypeError (Value Type_ Struct Field : string)
    (** [*json.UnmarshalTypeError]: the description of the JSON value,
        the Go type as [Type.String()] prints it, the name of the struct
        type that holds the field and the path of the field *)
| transportError (msg : string)
    (** an error of the network or of the request's context *).

(** The method [Error()]. *)
Definition Error (e : error) : string :=
  match e with
  | errorString s => s
  | wrapError msg _ => msg
  | SyntaxError msg _ => msg
  | UnmarshalTypeError v t st f =>
      if negb (String.eqb st EmptyString) || negb (String.eqb f EmptyString) then
        "json: cannot unmarshal " ++ v ++ " into Go struct field " ++ st ++ "." ++ f
        ++ " of type " ++ t
      else "json: cannot unmarshal " ++ v ++ " into Go value of type " ++ t
  | transportError msg => msg
  end.

(** [errors.Unwrap]. *)
Definition Unwrap (e : error) : option error :=
  match e with
  | wrapError _ err => Some err
  | _ => None
  end.

Module fmt.

(** An operand of a formatting call. *)
Inductive arg : Type :=
| Str (s : string)
| Int (i : Z)
| Err (e : error).

(** An operand under the verb [verb]. *)
Definition format_arg (verb : ascii) (a : arg) : string :=
  match a with
  | Str s =>
      if Ascii.eqb verb "s" || Ascii.eqb verb "v" then s
      else "%!" ++ str.of_byte verb ++ "(string=" ++ s ++ ")"
  | Int i =>
      if Ascii.eqb verb "d" || Ascii.eqb verb "v" then strconv.Itoa i
      else "%!" ++ str.of_byte verb ++ "(int=" ++ strconv.Itoa i ++ ")"
  | Err e => Error e
  end.

(** [fmt.Sprintf], for formats whose verbs are plain ([%s], [%d], [%v],
    [%w]) and [%%]. *)
Fixpoint Sprintf (format : string) (args : list arg) : string :=
  match format with
  | EmptyString => EmptyString
  | String "%" (String "%" rest) => String "%" (Sprintf rest args)
  | String "%" (String verb rest) =>
      match args with
      | a :: args' =>
          match rest with
          | EmptyString => format_arg verb a
          | _ => format_arg verb a ++ Sprintf rest args'
          end
      | [] => "%!" ++ str.of_byte verb ++ "(MISSING)" ++ Sprintf rest []
      end
  | String c rest => String c (Sprintf rest args)
  end.

Fixpoint wrapped (args : list arg) : option error :=
  match args with
  | [] => None
  | Err e :: _ => Some e
  | _ :: args' => wrapped args'
  end.

(** [fmt.Errorf]: the formatted text; an error operand (the one under
    [%w]) becomes the wrapped cause. *)
Definition Errorf (format : string) (args : list arg) : error :=
  match wrapped args with
  | Some e => wrapError (Sprintf format args) e
  | None => errorString (Sprintf format args)
  end.

End fmt.

(** ** [regexp]: a backtracking matcher with Go's leftmost-first choice *)

Module regexp.

(** The syntax the pattern of [parseVerificationResult] needs: literals,
    a repeated one-byte class ([x*], or [x*?] when not greedy), a
    capturing group, and concatenation. *)
Inductive Regexp : Type :=
| Lit (s : string)
| Star (greedy : bool) (cls : ascii -> bool)
| Group (index : nat) (r : Regexp)
| Cat (r1 r2 : Regexp).

(** The Perl class [\s] of RE2 syntax: [[\t\n\f\r ]]. *)
Definition perl_space (c : ascii) : bool :=
  Ascii.eqb c "009" || Ascii.eqb c "010" || Ascii.eqb c "012"
  || Ascii.eqb c "013" || Ascii.eqb c " ".

(** [[\s\S]]: a space or a non-space, that is, anything. *)
Definition space_or_not (c : ascii) : bool :=
  perl_space c || negb (perl_space c).

Section Matcher.
Context {R : Type}.

(** [x*]: prefer one more byte, fall back to stopping here. *)
Fixpoint star_greedy (cls : ascii -> bool) (s : string)
         (k : string -> option R) : option R :=
  match s with
  | String c s' =>
      if cls c then
        match star_greedy cls s' k with
        | Some r => Some r
        | None => k s
        end
      else k s
  | EmptyString => k s
  end.

(** [x*?]: prefer stopping here, fall back to one more byte. *)
Fixpoint star_lazy (cls : ascii -> bool) (s : string)
         (k : string -> option R) : option R :=
  match k s with
  | Some r => Some r
  | None =>
      match s with
      | String c s' => if cls c then star_lazy cls s' k else None
      | EmptyString => None
      end
  end.

(** [run r s caps k]: match [r] at the head of [s], then continue with
    [k] on the rest and the groups captured so far; the first success
    in priority order wins. *)
Fixpoint run (r : Regexp) (s : string) (caps : list (nat * string))
         (k : string -> list (nat * string) -> option R) : option R :=
  match r with
  | Lit l =>
      match str.CutPrefix s l with
      | Some s' => k s' caps
      | None => None
      end
  | Star greedy cls =>
      (if greedy then star_greedy else star_lazy) cls s (fun s' => k s' caps)
  | Group i r' =>
      run r' s caps (fun s' caps' => k s' ((i, str.consumed s s') :: caps'))
  | Cat r1 r2 =>
      run r1 s caps (fun s' caps' => run r2 s' caps' k)
  end.
End Matcher.

(** A match anchored at the head of [s]: the matched text and the groups. *)
Definition match_here (re : Regexp) (s : string)
  : option (string * list (nat * string)) :=
  run re s [] (fun s' caps => Some (str.consumed s s', caps)).

(** The leftmost match. *)
Fixpoint find (re : Regexp) (s : string)
  : option (string * list (nat * string)) :=
  match match_here re s with
  | Some m => Some m
  | None =>
      match s with
      | String _ s' => find re s'
      | EmptyString => None
      end
  end.

Fixpoint num_groups (re : Regexp) : nat :=
  match re with
  | Lit _ | Star _ _ => 0
  | Group i r => Nat.max i (num_groups r)
  | Cat r1 r2 => Nat.max (num_groups r1) (num_groups r2)
  end.

Fixpoint group (caps : list (nat * string)) (i : nat) : string :=
  match caps with
  | [] => EmptyString
  | (j, t) :: caps' => if Nat.eqb i j then t else group caps' i
  end.

(** The method [FindStringSubmatch] of a compiled pattern: [nil] without a match, else the
    matched text followed by the text of each group. *)
Definition FindStringSubmatch (re : Regexp) (s : string) : list string :=
  match find re s with
  | None => []
  | Some (whole, caps) => whole :: List.map (group caps) (seq 1 (num_groups re))
  end.

End regexp.

(** ** [unicode/utf8] and [unicode/utf16] *)

Module utf8.

Definition RuneError : N := 65533.  (* U+FFFD *)
Definition MaxRune : N := 1114111.  (* U+10FFFF *)

(** A continuation byte, [0x80..0xBF]. *)
Definition cont (c : ascii) : bool :=
  (128 <=? str.code c)%N && (str.code c <=? 191)%N.

Definition low6 (c : ascii) : N := N.land (str.code c) 63.

(** For a leading byte: the length of the sequence and the range in
    which its second byte must lie; [None] for a byte that cannot lead. *)
Definition first (p0 : N) : option (nat * N * N) :=
  if (p0 <? 194)%N then None
  else if (p0 <=? 223)%N then Some (2%nat, 128%N, 191%N)
  else if (p0 =? 224)%N then Some (3%nat, 160%N, 191%N)
  else if (p0 <=? 236)%N then Some (3%nat, 128%N, 191%N)
  else if (p0 =? 237)%N then Some (3%nat, 128%N, 159%N)
  else if (p0 <=? 239)%N then Some (3%nat, 128%N, 191%N)
  else if (p0 =? 240)%N then Some (4%nat, 144%N, 191%N)
  else if (p0 <=? 243)%N then Some (4%nat, 128%N, 191%N)
  else if (p0 =? 244)%N then Some (4%nat, 128%N, 143%N)
  else None.

(** [utf8.DecodeRune]: the first rune of [s] and its width in bytes;
    [(RuneError, 1)] on an invalid or truncated encoding, [(RuneError, 0)]
    on the empty string. *)
Definition DecodeRune (s : string) : N * nat :=
  match s with
  | EmptyString => (RuneError, 0)
  | String c0 s1 =>
      let p0 := str.code c0 in
      if (p0 <? 128)%N then (p0, 1)
      else
        match first p0, s1 with
        | Some (sz, lo, hi), String c1 s2 =>
            if negb ((lo <=? str.code c1)%N && (str.code c1 <=? hi)%N)
            then (RuneError, 1)
            else if (sz <=? 2)%nat
            then (N.lor (N.shiftl (N.land p0 31) 6) (low6 c1), 2)
            else
              match s2 with
              | String c2 s3 =>
                  if negb (cont c2) then (RuneError, 1)
                  else if (sz <=? 3)%nat
                  then (N.lor (N.shiftl (N.land p0 15) 12)
                          (N.lor (N.shiftl (low6 c1) 6) (low6 c2)), 3)
                  else
                    match s3 with
                    | String c3 _ =>
                        if negb (cont c3) then (RuneError, 1)
                        else (N.lor (N.shiftl (N.land p0 7) 18)
                                (N.lor (N.shiftl (low6 c1) 12)
                                   (N.lor (N.shiftl (low6 c2) 6) (low6 c3))), 4)
                    | EmptyString => (RuneError, 1)
                    end
              | EmptyString => (RuneError, 1)
              end
        | _, _ => (RuneError, 1)
        end
  end.

Definition is_surrogate (r : N) : bool := (55296 <=? r)%N && (r <? 57344)%N.

Definition tail_byte (r : N) (shift : N) : ascii :=
  str.byte_of (N.lor 128 (N.land (N.shiftr r shift) 63)).

(** [utf8.EncodeRune] (as [utf8.AppendRune] to the empty string). *)
Definition EncodeRune (r : N) : string :=
  let r := if (MaxRune <? r)%N || is_surrogate r then RuneError else r in
  if (r <=? 127)%N then str.of_byte (str.byte_of r)
  else if (r <=? 2047)%N then
    String (str.byte_of (N.lor 192 (N.shiftr r 6))) (str.of_byte (tail_byte r 0))
  else if (r <=? 65535)%N then
    String (str.byte_of (N.lor 224 (N.shiftr r 12)))
      (String (tail_byte r 6) (str.of_byte (tail_byte r 0)))
  else
    String (str.byte_of (N.lor 240 (N.shiftr r 18)))
      (String (tail_byte r 12)
         (String (tail_byte r 6) (str.of_byte (tail_byte r 0)))).

(** [utf16.DecodeRune]: the rune of a surrogate pair, else [RuneError]. *)
Definition DecodeSurrogates (r1 r2 : N) : N :=
  if (55296 <=? r1)%N && (r1 <? 56320)%N && (56320 <=? r2)%N && (r2 <? 57344)%N
  then (N.lor (N.shiftl (r1 - 55296) 10) (r2 - 56320) + 65536)%N
  else RuneError.

End utf8.

(** ** Hexadecimal digits *)

Module hex.

Definition lower (d : N) : ascii :=
  if (d <? 10)%N then str.byte_of (48 + d) else str.byte_of (87 + d).

(** The value of a hexadecimal digit of either case. *)
Definition value (c : ascii) : option N :=
  if str.between "0" "9" c then Some (str.code c - 48)%N
  else if str.between "a" "f" c then Some (str.code c - 87)%N
  else if str.between "A" "F" c then Some (str.code c - 55)%N
  else None.

Definition is_hex (c : ascii) : bool :=
  match value c with Some _ => true | None => false end.

(** Two lower-case digits of a byte. *)
Definition byte2 (b : N) : string :=
  String (lower (N.shiftr b 4)) (str.of_byte (lower (N.land b 15))).

End hex.

(** ** [encoding/json] *)

Module json.

(** *** JSON values *)

#[warnings="-register-all"]
Inductive value : Type :=
| VNull
| VBool (b : bool)
| VNumber (lit : string)   (** the literal as written *)
| VString (s : string)     (** the text, unquoted *)
| VArray (elems : list value)
| VObject (members : list (string * value)).

(** [isSpace]: the four white-space bytes of JSON. *)
Definition isSpace (c : ascii) : bool :=
  Ascii.eqb c " " || Ascii.eqb c "009" || Ascii.eqb c "013" || Ascii.eqb c "010".

(** *** Unquoting a string literal ([unquoteBytes]) *)

(** [getu4]: the value of a leading [\uXXXX], if [s] starts with one. *)
Definition getu4 (s : string) : option N :=
  match s with
  | String b (String u (String h1 (String h2 (String h3 (String h4 _))))) =>
      if Ascii.eqb b str.backslash && Ascii.eqb u "u" then
        match hex.value h1, hex.value h2, hex.value h3, hex.value h4 with
        | Some a, Some b, Some c, Some d =>
            Some (4096 * a + 256 * b + 16 * c + d)%N
        | _, _, _, _ => None
        end
      else None
  | _ => None
  end.

Definition escape_byte (e : ascii) : option ascii :=
  if Ascii.eqb e str.dquote || Ascii.eqb e str.backslash
     || Ascii.eqb e "/" || Ascii.eqb e "'" then Some e
  else if Ascii.eqb e "b" then Some "008"%char
  else if Ascii.eqb e "f" then Some "012"%char
  else if Ascii.eqb e "n" then Some "010"%char
  else if Ascii.eqb e "r" then Some "013"%char
  else if Ascii.eqb e "t" then Some "009"%char
  else None.

(** The text of the literal whose bytes between the quotes are [s]:
    escapes are resolved, a surrogate pair of [\u] escapes is joined (a
    lone surrogate becomes U+FFFD), and every byte that is not part of
    a valid UTF-8 sequence becomes U+FFFD.  The literal has passed the
    scanner, so the escapes are well formed; on others the text stops. *)
Fixpoint unquote_from (fuel : nat) (s : string) : string :=
  match fuel, s with
  | S fuel', String c rest =>
      if Ascii.eqb c str.backslash then
        match rest with
        | String e rest' =>
            if Ascii.eqb e "u" then
              match getu4 s with
              | Some rr =>
                  let s6 := str.drop 6 s in
                  if utf8.is_surrogate rr then
                    let dec :=
                      match getu4 s6 with
                      | Some rr1 => utf8.DecodeSurrogates rr rr1
                      | None => utf8.RuneError
                      end in
                    if negb (dec =? utf8.RuneError)%N
                    then utf8.EncodeRune dec ++ unquote_from fuel' (str.drop 6 s6)
                    else utf8.EncodeRune utf8.RuneError ++ unquote_from fuel' s6
                  else utf8.EncodeRune rr ++ unquote_from fuel' s6
              | None => EmptyString
              end
            else
              match escape_byte e with
              | Some b => String b (unquote_from fuel' rest')
              | None => EmptyString
              end
        | EmptyString => EmptyString
        end
      else if (str.code c <? 128)%N then String c (unquote_from fuel' rest)
      else
        let '(rr, size) := utf8.DecodeRune s in
        utf8.EncodeRune rr ++ unquote_from fuel' (str.drop size s)
  | _, _ => EmptyString
  end.

Definition unquote (s : string) : string := unquote_from (String.length s) s.

(** *** The scanner ([scanner.go]), carrying the value under construction

    The scanner is a state machine fed one byte at a time.  Go's decoder
    drives the same machine a second time to build the result; here the
    machine collects the bytes of the current literal and the members
    of the open objects and arrays as it goes, so that one pass yields
    both the verdict of [checkValid] and the value. *)

Inductive state : Type :=
| StBeginValueOrEmpty | StBeginValue | StBeginStringOrEmpty | StBeginString
| StEndValue | StEndTop
| StInString | StInStringEsc
| StInStringEscU | StInStringEscU1 | StInStringEscU12 | StInStringEscU123
| StNeg | St1 | St0 | StDot | StDot0 | StE | StESign | StE0
| StT | StTr | StTru | StF | StFa | StFal | StFals | StN | StNu | StNul
| StError.

(** An entry of the parse stack, with what has been read of the object
    or array it stands for. *)
Inductive frame : Type :=
| parseObjectKey (members : list (string * value)) (key : string)
| parseObjectValue (members : list (string * value)) (key : string)
| parseArrayValue (elems : list value).

Record scanner : Type := mkScanner {
  step : state;
  parseState : list frame;
  literal : string;       (** the bytes of the literal being read *)
  endTop : bool;
  top : option value;     (** the top-level value, once complete *)
  err : option error;
  bytes : Z               (** total bytes consumed *)
}.

Definition maxNestingDepth : Z := 10000.

Definition reset : scanner :=
  mkScanner StBeginValue [] EmptyString false None None 0.

Definition set_step (st : state) (s : scanner) : scanner :=
  mkScanner st (parseState s) (literal s) (endTop s) (top s) (err s) (bytes s).

Definition set_parseState (ps : list frame) (s : scanner) : scanner :=
  mkScanner (step s) ps (literal s) (endTop s) (top s) (err s) (bytes s).

Definition set_literal (l : string) (s : scanner) : scanner :=
  mkScanner (step s) (parseState s) l (endTop s) (top s) (err s) (bytes s).

Definition set_endTop (s : scanner) : scanner :=
  mkScanner StEndTop (parseState s) (literal s) true (top s) (err s) (bytes s).

Definition set_top (v : value) (s : scanner) : scanner :=
  mkScanner (step s) (parseState s) (literal s) (endTop s) (Some v) (err s) (bytes s).

(** Begin, resp. continue, a literal with the byte [c]. *)
Definition begin_literal (st : state) (c : ascii) (s : scanner) : scanner :=
  set_step st (set_literal (str.of_byte c) s).

Definition continue (st : state) (c : ascii) (s : scanner) : scanner :=
  set_step st (set_literal (literal s ++ str.of_byte c) s).

(** [quoteChar]: a byte as it appears in an error message. *)
Definition quoteChar (c : ascii) : string :=
  let n := str.code c in
  let sq := str.of_byte "'" in
  let bs := str.of_byte str.backslash in
  if Ascii.eqb c "'" then sq ++ bs ++ sq ++ sq
  else if Ascii.eqb c str.dquote then sq ++ str.of_byte c ++ sq
  else
    sq ++
    (if Ascii.eqb c str.backslash then bs ++ bs
     else if (32 <=? n)%N && (n <=? 126)%N then str.of_byte c
     else if (n =? 7)%N then bs ++ "a"
     else if (n =? 8)%N then bs ++ "b"
     else if (n =? 12)%N then bs ++ "f"
     else if (n =? 10)%N then bs ++ "n"
     else if (n =? 13)%N then bs ++ "r"
     else if (n =? 9)%N then bs ++ "t"
     else if (n =? 11)%N then bs ++ "v"
     else if (n <? 32)%N || (n =? 127)%N then bs ++ "x" ++ hex.byte2 n
     else if (n <=? 160)%N || (n =? 173)%N then bs ++ "u00" ++ hex.byte2 n
     else utf8.EncodeRune n)
    ++ sq.

(** The scanner's method [error]: record a syntax error and stop. *)
Definition error_at (s : scanner) (c : ascii) (context : string) : scanner :=
  mkScanner StError (parseState s) (literal s) (endTop s) (top s)
    (Some (SyntaxError ("invalid character " ++ quoteChar c ++ " " ++ context)
             (bytes s)))
    (bytes s).

(** Hand a completed value to the innermost open object or array, or
    make it the top-level value. *)
Definition deliver (v : value) (s : scanner) : scanner :=
  match parseState s with
  | [] => set_top v s
  | parseObjectKey ms k :: ps =>
      let k' := match v with VString t => t | _ => k end in
      set_parseState (parseObjectKey ms k' :: ps) s
  | parseObjectValue ms k :: ps =>
      set_parseState (parseObjectValue (ms ++ [(k, v)]) k :: ps) s
  | parseArrayValue es :: ps =>
      set_parseState (parseArrayValue (es ++ [v]) :: ps) s
  end.

(** [pushParseState]. *)
Definition pushParseState (s : scanner) (c : ascii) (f : frame) : scanner :=
  let s' := set_parseState (f :: parseState s) s in
  if (Z.of_nat (List.length (parseState s')) <=? maxNestingDepth)%Z then s'
  else error_at s' c "exceeded max depth".

(** [popParseState]; [v] is the object or array that has just closed. *)
Definition popParseState (v : value) (s : scanner) : scanner :=
  match parseState s with
  | [] => s
  | _ :: ps =>
      let s' := deliver v (set_parseState ps s) in
      match ps with
      | [] => set_endTop s'
      | _ :: _ => set_step StEndValue s'
      end
  end.

Definition stateEndTop (s : scanner) (c : ascii) : scanner :=
  if isSpace c then s else error_at s c "after top-level value".

Definition stateEndValue (s : scanner) (c : ascii) : scanner :=
  match parseState s with
  | [] => stateEndTop (set_endTop s) c
  | f :: ps =>
      if isSpace c then set_step StEndValue s
      else
        match f with
        | parseObjectKey ms k =>
            if Ascii.eqb c ":" then
              set_step StBeginValue (set_parseState (parseObjectValue ms k :: ps) s)
            else error_at s c "after object key"
        | parseObjectValue ms k =>
            if Ascii.eqb c "," then
              set_step StBeginString
                (set_parseState (parseObjectKey ms EmptyString :: ps) s)
            else if Ascii.eqb c "}" then popParseState (VObject ms) s
            else error_at s c "after object key:value pair"
        | parseArrayValue es =>
            if Ascii.eqb c "," then set_step StBeginValue s
            else if Ascii.eqb c "]" then popParseState (VArray es) s
            else error_at s c "after array element"
        end
  end.

Definition stateBeginValue (s : scanner) (c : ascii) : scanner :=
  if isSpace c then s
  else if Ascii.eqb c "{" then
    pushParseState (set_step StBeginStringOrEmpty s) c (parseObjectKey [] EmptyString)
  else if Ascii.eqb c "[" then
    pushParseState (set_step StBeginValueOrEmpty s) c (parseArrayValue [])
  else if Ascii.eqb c str.dquote then set_step StInString (set_literal EmptyString s)
  else if Ascii.eqb c "-" then begin_literal StNeg c s
  else if Ascii.eqb c "0" then begin_literal St0 c s
  else if Ascii.eqb c "t" then begin_literal StT c s
  else if Ascii.eqb c "f" then begin_literal StF c s
  else if Ascii.eqb c "n" then begin_literal StN c s
  else if str.between "1" "9" c then begin_literal St1 c s
  else error_at s c "looking for beginning of value".

Definition stateBeginValueOrEmpty (s : scanner) (c : ascii) : scanner :=
  if isSpace c then s
  else if Ascii.eqb c "]" then stateEndValue s c
  else stateBeginValue s c.

Definition stateBeginString (s : scanner) (c : ascii) : scanner :=
  if isSpace c then s
  else if Ascii.eqb c str.dquote then set_step StInString (set_literal EmptyString s)
  else error_at s c "looking for beginning of object key string".

Definition stateBeginStringOrEmpty (s : scanner) (c : ascii) : scanner :=
  if isSpace c then s
  else if Ascii.eqb c "}" then
    match parseState s with
    | parseObjectKey ms k :: ps =>
        stateEndValue (set_parseState (parseObjectValue ms k :: ps) s) c
    | _ => stateEndValue s c
    end
  else stateBeginString s c.

Definition stateInString (s : scanner) (c : ascii) : scanner :=
  if Ascii.eqb c str.dquote then
    set_step StEndValue (deliver (VString (unquote (literal s))) s)
  else if Ascii.eqb c str.backslash then continue StInStringEsc c s
  else if (str.code c <? 32)%N then error_at s c "in string literal"
  else continue StInString c s.

Definition stateInStringEsc (s : scanner) (c : ascii) : scanner :=
  if Ascii.eqb c "b" || Ascii.eqb c "f" || Ascii.eqb c "n" || Ascii.eqb c "r"
     || Ascii.eqb c "t" || Ascii.eqb c str.backslash || Ascii.eqb c "/"
     || Ascii.eqb c str.dquote
  then continue StInString c s
  else if Ascii.eqb c "u" then continue StInStringEscU c s
  else error_at s c "in string escape code".

(** The four states after [\u]: a hexadecimal digit leads to [next]. *)
Definition stateInStringEscHex (next : state) (s : scanner) (c : ascii) : scanner :=
  if hex.is_hex c then continue next c s
  else error_at s c ("in " ++ str.of_byte str.backslash ++ "u hexadecimal character escape").

(** The end of a number: the literal is complete before the byte [c]. *)
Definition endNumber (s : scanner) (c : ascii) : scanner :=
  stateEndValue (deliver (VNumber (literal s)) s) c.

Definition state0 (s : scanner) (c : ascii) : scanner :=
  if Ascii.eqb c "." then continue StDot c s
  else if Ascii.eqb c "e" || Ascii.eqb c "E" then continue StE c s
  else endNumber s c.

Definition state1 (s : scanner) (c : ascii) : scanner :=
  if strconv.is_digit c then continue St1 c s else state0 s c.

Definition stateNeg (s : scanner) (c : ascii) : scanner :=
  if Ascii.eqb c "0" then continue St0 c s
  else if str.between "1" "9" c then continue St1 c s
  else error_at s c "in numeric literal".

Definition stateDot (s : scanner) (c : ascii) : scanner :=
  if strconv.is_digit c then continue StDot0 c s
  else error_at s c "after decimal point in numeric literal".

Definition stateDot0 (s : scanner) (c : ascii) : scanner :=
  if strconv.is_digit c then continue StDot0 c s
  else if Ascii.eqb c "e" || Ascii.eqb c "E" then continue StE c s
  else endNumber s c.

Definition stateESign (s : scanner) (c : ascii) : scanner :=
  if strconv.is_digit c then continue StE0 c s
  else error_at s c "in exponent of numeric literal".

Definition stateE (s : scanner) (c : ascii) : scanner :=
  if Ascii.eqb c "+" || Ascii.eqb c "-" then continue StESign c s
  else stateESign s c.

Definition stateE0 (s : scanner) (c : ascii) : scanner :=
  if strconv.is_digit c then continue StE0 c s else endNumber s c.

(** A state inside [true], [false] or [null]: the byte [want] leads to
    [next]. *)
Definition stateWord (want : ascii) (next : state) (word : string)
           (s : scanner) (c : ascii) : scanner :=
  if Ascii.eqb c want then continue next c s
  else error_at s c ("in literal " ++ word ++ " (expecting '" ++ str.of_byte want ++ "')").

(** The last byte of [true], [false] or [null] completes the value [v]. *)
Definition stateWordEnd (want : ascii) (v : value) (word : string)
           (s : scanner) (c : ascii) : scanner :=
  if Ascii.eqb c want then set_step StEndValue (deliver v s)
  else error_at s c ("in literal " ++ word ++ " (expecting '" ++ str.of_byte want ++ "')").

(** One call of [s.step(s, c)]. *)
Definition step_byte (s : scanner) (c : ascii) : scanner :=
  match step s with
  | StBeginValueOrEmpty => stateBeginValueOrEmpty s c
  | StBeginValue => stateBeginValue s c
  | StBeginStringOrEmpty => stateBeginStringOrEmpty s c
  | StBeginString => stateBeginString s c
  | StEndValue => stateEndValue s c
  | StEndTop => stateEndTop s c
  | StInString => stateInString s c
  | StInStringEsc => stateInStringEsc s c
  | StInStringEscU => stateInStringEscHex StInStringEscU1 s c
  | StInStringEscU1 => stateInStringEscHex StInStringEscU12 s c
  | StInStringEscU12 => stateInStringEscHex StInStringEscU123 s c
  | StInStringEscU123 => stateInStringEscHex StInString s c
  | StNeg => stateNeg s c
  | St1 => state1 s c
  | St0 => state0 s c
  | StDot => stateDot s c
  | StDot0 => stateDot0 s c
  | StE => stateE s c
  | StESign => stateESign s c
  | StE0 => stateE0 s c
  | StT => stateWord "r" StTr "true" s c
  | StTr => stateWord "u" StTru "true" s c
  | StTru => stateWordEnd "e" (VBool true) "true" s c
  | StF => stateWord "a" StFa "false" s c
  | StFa => stateWord "l" StFal "false" s c
  | StFal => stateWord "s" StFals "false" s c
  | StFals => stateWordEnd "e" (VBool false) "false" s c
  | StN => stateWord "u" StNu "null" s c
  | StNu => stateWord "l" StNul "null" s c
  | StNul => stateWordEnd "l" VNull "null" s c
  | StError => s
  end.

(** The body of the loop of [checkValid]: count the byte, then step. *)
Definition consume (s : scanner) (c : ascii) : scanner :=
  step_byte (mkScanner (step s) (parseState s) (literal s) (endTop s) (top s)
               (err s) (bytes s + 1)) c.

(** The loop of [checkValid]; it ends at the first error. *)
Fixpoint feed (s : scanner) (data : string) : scanner :=
  match data with
  | EmptyString => s
  | String c data' =>
      match err s with
      | Some _ => s
      | None => feed (consume s c) data'
      end
  end.

(** The scanner's method [eof], returning the value on success. *)
Definition eof (s : scanner) : value + error :=
  match err s with
  | Some e => inr e
  | None =>
      let s' := if endTop s then s else step_byte s " " in
      if endTop s' then
        match top s' with
        | Some v => inl v
        | None => inr (SyntaxError "unexpected end of JSON input" (bytes s'))
        end
      else
        match err s' with
        | Some e => inr e
        | None => inr (SyntaxError "unexpected end of JSON input" (bytes s'))
        end
  end.

(** [checkValid] and the reading of the value, in one pass. *)
Definition scan (data : string) : value + error := eof (feed reset data).

Definition Valid (data : string) : bool :=
  match scan data with inl _ => true | inr _ => false end.

(** *** Decoding a value into a Go variable *)

(** [errorContext]: the struct type being decoded, by its name, and the
    names of the fields that lead from the root to the value.  The name
    of an anonymous struct type is empty. *)
Record errorContext : Type := {
  Struct : string;
  FieldStack : list string
}.

(** The context of a value that is in no struct. *)
Definition noContext : errorContext :=
  {| Struct := EmptyString; FieldStack := [] |}.

(** The context of the field [name] of the struct type named
    [structName], itself decoded under [ctx]. *)
Definition inField (ctx : errorContext) (structName name : string) : errorContext :=
  {| Struct := structName; FieldStack := (FieldStack ctx ++ [name])%list |}.

(** A new [UnmarshalTypeError], after [d.addErrorContext]. *)
Definition typeError (ctx : errorContext) (value type_ : string) : error :=
  UnmarshalTypeError value type_ (Struct ctx) (String.concat "." (FieldStack ctx)).

(** [store ctx cur v] is the decoder's [d.value] on a variable that
    holds [cur]: it returns the variable's new contents and the error
    the decoder saves, if any.  Decoding goes on after a type error and
    the first error is the one reported ([d.saveError]).  A slice is a
    list: [nil] and the empty slice are both []. *)

Class Decodable (T : Type) : Type := {
  zero : T;
  goType : string;
  store : errorContext -> T -> value -> T * option error
}.

(** The [Value] of an [UnmarshalTypeError]. *)
Definition describe (v : value) : string :=
  match v with
  | VNull => "null"
  | VBool _ => "bool"
  | VNumber _ => "number"
  | VString _ => "string"
  | VArray _ => "array"
  | VObject _ => "object"
  end.

(** [d.saveError]: keep the first error. *)
Definition saveError (saved new : option error) : option error :=
  match saved with
  | Some _ => saved
  | None => new
  end.

#[global] Instance Decodable_int : Decodable Z := {
  zero := 0%Z;
  goType := "int";
  store ctx cur v :=
    match v with
    | VNull => (cur, None)
    | VNumber lit =>
        match strconv.ParseInt lit with
        | Some n => (n, None)
        | None => (cur, Some (typeError ctx ("number " ++ lit) "int"))
        end
    | _ => (cur, Some (typeError ctx (describe v) "int"))
    end
}.

#[global] Instance Decodable_string : Decodable string := {
  zero := EmptyString;
  goType := "string";
  store ctx cur v :=
    match v with
    | VNull => (cur, None)
    | VString s => (s, None)
    | _ => (cur, Some (typeError ctx (describe v) "string"))
    end
}.

(** The elements of a JSON array are decoded in order, each into the
    element the slice already holds at that index, if any. *)
Fixpoint array {T} `{Decodable T} (ctx : errorContext) (cur : list T)
         (vs : list value) : list T * option error :=
  match vs with
  | [] => ([], None)
  | v :: vs' =>
      let '(x, e) := store ctx (List.hd zero cur) v in
      let '(xs, e') := array ctx (List.tl cur) vs' in
      (x :: xs, saveError e e')
  end.

#[global] Instance Decodable_slice {T} `{Decodable T} : Decodable (list T) := {
  zero := [];
  goType := "[]" ++ goType (T := T);
  store ctx cur v :=
    match v with
    | VNull => ([], None)
    | VArray vs => array ctx cur vs
    | _ => (cur, Some (typeError ctx (describe v) ("[]" ++ goType (T := T))))
    end
}.

(** A pointer: [null] makes it nil, anything else is decoded into the
    variable it points to, allocated first if the pointer is nil. *)
#[global] Instance Decodable_pointer {T} `{Decodable T} : Decodable (option T) := {
  zero := None;
  goType := "*" ++ goType (T := T);
  store ctx cur v :=
    match v with
    | VNull => (None, None)
    | _ =>
        let '(x, e) := store ctx (default zero cur) v in
        (Some x, e)
    end
}.

(** [foldName]: the key under which a field name is looked up when no
    field has exactly that name.  ASCII letters are upper-cased, and the
    two runes outside ASCII whose case folding is an ASCII letter,
    U+017F and U+212A, become [S] and [K]; the other bytes are kept,
    which is enough to compare with the ASCII names of the structs. *)
Fixpoint foldName (s : string) : string :=
  match s with
  | EmptyString => EmptyString
  | String "197" (String "191" s') => String "S" (foldName s')
  | String "226" (String "132" (String "170" s')) => String "K" (foldName s')
  | String c s' =>
      String (if str.between "a" "z" c then str.byte_of (str.code c - 32) else c)
        (foldName s')
  end.

(** Does the object key [key] select the field tagged [name]? *)
Definition keyIs (key name : string) : bool :=
  String.eqb key name || String.eqb (foldName key) (foldName name).

(** A struct of the type that prints as [typeName] and is named
    [structName]: the members of the object are taken in order, each
    decoded into the field it selects by [setField], which is given the
    context of each field of the struct; [null] changes nothing and any
    other value is a type error. *)
Definition storeStruct {T} (typeName structName : string)
           (setField : (string -> errorContext) -> T -> string -> value
                       -> T * option error)
           (ctx : errorContext) (cur : T) (v : value) : T * option error :=
  match v with
  | VNull => (cur, None)
  | VObject members =>
      List.fold_left
        (fun acc kv =>
           let '(x, e) := setField (inField ctx structName) acc.1 kv.1 kv.2 in
           (x, saveError acc.2 e))
        members (cur, None)
  | _ => (cur, Some (typeError ctx (describe v) typeName))
  end.

(** [json.Unmarshal(data, &x)], where [x] holds [cur]: the new contents
    of [x] and the error.  On a syntax error [x] is left as it was. *)
Definition Unmarshal {T} `{Decodable T} (data : string) (cur : T)
  : T * option error :=
  match scan data with
  | inr e => (cur, Some e)
  | inl v => store noContext cur v
  end.

(** *** Encoding *)

(** The bytes that [appendString] copies as they are when it escapes
    for HTML: ASCII from the space on, except the double quote, the
    backslash and [<], [>], [&]. *)
Definition htmlSafe (c : ascii) : bool :=
  (32 <=? str.code c)%N && (str.code c <? 128)%N
  && negb (Ascii.eqb c str.dquote) && negb (Ascii.eqb c str.backslash)
  && negb (Ascii.eqb c "<") && negb (Ascii.eqb c ">") && negb (Ascii.eqb c "&").

Definition escapeASCII (c : ascii) : string :=
  let bs := str.of_byte str.backslash in
  if Ascii.eqb c str.backslash || Ascii.eqb c str.dquote then bs ++ str.of_byte c
  else if Ascii.eqb c "008" then bs ++ "b"
  else if Ascii.eqb c "012" then bs ++ "f"
  else if Ascii.eqb c "010" then bs ++ "n"
  else if Ascii.eqb c "013" then bs ++ "r"
  else if Ascii.eqb c "009" then bs ++ "t"
  else bs ++ "u00" ++ hex.byte2 (str.code c).

Fixpoint escape_from (fuel : nat) (s : string) : string :=
  match fuel, s with
  | S fuel', String c rest =>
      if (str.code c <? 128)%N then
        (if htmlSafe c then str.of_byte c else escapeASCII c)
        ++ escape_from fuel' rest
      else
        let '(r, size) := utf8.DecodeRune s in
        if (r =? utf8.RuneError)%N && (size =? 1)%nat then
          str.of_byte str.backslash ++ "ufffd" ++ escape_from fuel' rest
        else if (r =? 8232)%N || (r =? 8233)%N then
          str.of_byte str.backslash ++ "u202" ++ str.of_byte (hex.lower (N.land r 15))
          ++ escape_from fuel' (str.drop size s)
        else str.take size s ++ escape_from fuel' (str.drop size s)
  | _, _ => EmptyString
  end.

(** [appendString(nil, s, true)]: the JSON string literal for [s]. *)
Definition appendString (s : string) : string :=
  str.of_byte str.dquote ++ escape_from (String.length s) s ++ str.of_byte str.dquote.

Class Encodable (T : Type) : Type := { encode : T -> string }.

#[global] Instance Encodable_string : Encodable string := { encode := appendString }.
#[global] Instance Encodable_int : Encodable Z := { encode := strconv.Itoa }.

Fixpoint join {T} `{Encodable T} (l : list T) : string :=
  match l with
  | [] => EmptyString
  | [x] => encode x
  | x :: l' => encode x ++ "," ++ join l'
  end.

(** A slice that is not nil. *)
#[global] Instance Encodable_slice {T} `{Encodable T} : Encodable (list T) := {
  encode l := "[" ++ join l ++ "]"
}.

(** One member of an object: the quoted name, a colon, the value. *)
Definition member {T} `{Encodable T} (name : string) (x : T) : string :=
  appendString name ++ ":" ++ encode x.

(** [json.Marshal]; the types encoded here have no value that fails. *)
Definition Marshal {T} `{Encodable T} (x : T) : string * option error :=
  (encode x, None).

End json.

(** ** [net/http] and [io], as far as [Verify] uses them *)

Module http.

Definition StatusOK : Z := 200.

(** [validHeaderFieldByte]: the token bytes of RFC 7230. *)
Definition validHeaderFieldByte (c : ascii) : bool :=
  str.between "a" "z" c || str.between "A" "Z" c || str.between "0" "9" c
  || str.Contains "!#$%&'*+-.^_`|~" (str.of_byte c).

(** First letter and every letter after a dash in upper case, the other
    letters in lower case. *)
Fixpoint canonical (upper : bool) (s : string) : string :=
  match s with
  | EmptyString => EmptyString
  | String c s' =>
      let c' :=
        if upper && str.between "a" "z" c then str.byte_of (str.code c - 32)
        else if negb upper && str.between "A" "Z" c then str.byte_of (str.code c + 32)
        else c in
      String c' (canonical (Ascii.eqb c' "-") s')
  end.

(** [textproto.CanonicalMIMEHeaderKey]: a key with a byte that is not a
    token byte is returned unchanged. *)
Definition CanonicalMIMEHeaderKey (s : string) : string :=
  if str.all validHeaderFieldByte s then canonical true s else s.

(** [http.Header] is [map[string][]string]. *)
Abbreviation Header := (gmap string (list string)).

(** [Header.Set] and [Header.Get]. *)
Definition Set_ (h : Header) (key val : string) : Header :=
  <[CanonicalMIMEHeaderKey key := [val]]> h.

Definition Get (h : Header) (key : string) : string :=
  match h !! CanonicalMIMEHeaderKey key with
  | Some (v :: _) => v
  | _ => EmptyString
  end.

(** A [context.Context], as far as a request observes it: the value of
    [ctx.Err()]. *)
Record Context : Type := { Err : option error }.

Definition Background : Context := {| Err := None |}.

Record Request : Type := {
  Method : string;
  URL : string;
  Header_ : Header;
  Body : string;
  ctx : Context
}.

(** A response: the status code and what [io.ReadAll] gets from the
    body, namely the bytes read and the error that stopped the reading. *)
Record Response : Type := {
  StatusCode : Z;
  ReadAll : string * option error
}.

(** [validMethod]: a non-empty token. *)
Definition validMethod (method : string) : bool :=
  negb (String.eqb method EmptyString) && str.all validHeaderFieldByte method.

Definition isCTL (c : ascii) : bool :=
  (str.code c <? 32)%N || (str.code c =? 127)%N.

(** [http.NewRequestWithContext].  It fails on an invalid method, on a
    nil context and on a URL that [url.Parse] rejects; of the checks of
    [url.Parse], the one on control bytes is modelled: an absolute
    [https] URL with a plain host and path, such as the one of this
    client, meets the others. *)
Definition NewRequestWithContext (ctx : option Context) (method url body : string)
  : Request + error :=
  if negb (validMethod method) then
    inr (errorString ("net/http: invalid method " ++ json.appendString method))
  else
    match ctx with
    | None => inr (errorString "net/http: nil Context")
    | Some c =>
        if negb (str.all (fun b => negb (isCTL b)) url) then
          inr (errorString ("parse " ++ json.appendString url
                            ++ ": net/url: invalid control character in URL"))
        else
          inl {| Method := method; URL := url; Header_ := ∅; Body := body; ctx := c |}
    end.

Definition setHeader (req : Request) (key val : string) : Request :=
  {| Method := Method req; URL := URL req;
     Header_ := Set_ (Header_ req) key val;
     Body := Body req; ctx := ctx req |}.

(** The world a client talks to: how the remote side (or the transport
    on the way) answers a request, and the requests sent so far. *)
Record World : Type := {
  respond : Request -> Response + error;
  sent : list Request
}.

(** [(&http.Client{}).Do(req)]: the request goes out and the world
    answers with a response or with an error. *)
Definition Do (req : Request) (w : World) : (Response + error) * World :=
  (respond w req, {| respond := respond w; sent := sent w ++ [req] |}).

End http.

(** ** Package [ai]: [claude.go] *)

Definition claudeAPIURL : string := "https://api.anthropic.com/v1/messages".

(** [ClaudeProvider]. *)
Record ClaudeProvider : Type := {
  apiKey : string;
  model : string
}.

(** [NewClaudeProvider]: the pair of results, a pointer to the provider
    and an error. *)
Definition NewClaudeProvider (apiKey : string)
  : option ClaudeProvider * option error :=
  if String.eqb apiKey EmptyString then
    (None, Some (fmt.Errorf "API key is required" []))
  else
    (Some {| apiKey := apiKey; model := "claude-sonnet-4-20250514" |}, None).

Definition Name (p : ClaudeProvider) : string := "claude".

(** [claudeMessage] and [claudeRequest], with their JSON encodings in the
    order and under the names of the struct tags. *)
Record claudeMessage : Type := {
  Role : string;
  Content : string
}.

Record claudeRequest : Type := {
  Model : string;
  MaxTokens : Z;
  Messages : list claudeMessage
}.

#[global] Instance Encodable_claudeMessage : json.Encodable claudeMessage := {
  encode m :=
    "{" ++ json.member "role" (Role m) ++ "," ++ json.member "content" (Content m) ++ "}"
}.

#[global] Instance Encodable_claudeRequest : json.Encodable claudeRequest := {
  encode r :=
    "{" ++ json.member "model" (Model r) ++ "," ++ json.member "max_tokens" (MaxTokens r)
    ++ "," ++ json.member "messages" (Messages r) ++ "}"
}.

(** [claudeResponse]: the two anonymous structs are named here.  Go
    has no name for their types and prints them with their tags. *)
Record contentItem : Type := {
  Type_ : string;
  Text : string
}.

Record apiError : Type := {
  ErrType : string;
  Message : string
}.

Record claudeResponse : Type := {
  RespContent : list contentItem;
  RespError : option apiError
}.

Definition contentItemType : string :=
  str.q "struct { Type string 'json:\'type\''; Text string 'json:\'text\'' }".

Definition apiErrorType : string :=
  str.q "struct { Type string 'json:\'type\''; Message string 'json:\'message\'' }".

#[global] Instance Decodable_contentItem : json.Decodable contentItem := {
  zero := {| Type_ := EmptyString; Text := EmptyString |};
  goType := contentItemType;
  store :=
    json.storeStruct contentItemType EmptyString
      (fun field x key v =>
         if json.keyIs key "type" then
           let '(t, e) := json.store (field "type") (Type_ x) v in
           ({| Type_ := t; Text := Text x |}, e)
         else if json.keyIs key "text" then
           let '(t, e) := json.store (field "text") (Text x) v in
           ({| Type_ := Type_ x; Text := t |}, e)
         else (x, None))
}.

#[global] Instance Decodable_apiError : json.Decodable apiError := {
  zero := {| ErrType := EmptyString; Message := EmptyString |};
  goType := apiErrorType;
  store :=
    json.storeStruct apiErrorType EmptyString
      (fun field x key v =>
         if json.keyIs key "type" then
           let '(t, e) := json.store (field "type") (ErrType x) v in
           ({| ErrType := t; Message := Message x |}, e)
         else if json.keyIs key "message" then
           let '(t, e) := json.store (field "message") (Message x) v in
           ({| ErrType := ErrType x; Message := t |}, e)
         else (x, None))
}.

#[global] Instance Decodable_claudeResponse : json.Decodable claudeResponse := {
  zero := {| RespContent := []; RespError := None |};
  goType := "ai.claudeResponse";
  store :=
    json.storeStruct "ai.claudeResponse" "claudeResponse"
      (fun field x key v =>
         if json.keyIs key "content" then
           let '(c, e) := json.store (field "content") (RespContent x) v in
           ({| RespContent := c; RespError := RespError x |}, e)
         else if json.keyIs key "error" then
           let '(r, e) := json.store (field "error") (RespError x) v in
           ({| RespContent := RespContent x; RespError := r |}, e)
         else (x, None))
}.

(** Modelled from the spec: the struct [VerificationResult], which package
    [ai] declares in another file.  The spec gives its four fields and the
    names they have in JSON ([matchPercentage], a number; [matchedItems]
    and [unmatchedItems], sequences of strings; [notes], a string); the
    number is taken to be a Go [int]. *)
Record VerificationResult : Type := {
  MatchPercentage : Z;
  MatchedItems : list string;
  UnmatchedItems : list string;
  Notes : string
}.

#[global] Instance Decodable_VerificationResult : json.Decodable VerificationResult := {
  zero := {| MatchPercentage := 0; MatchedItems := []; UnmatchedItems := []; Notes := EmptyString |};
  goType := "ai.VerificationResult";
  store :=
    json.storeStruct "ai.VerificationResult" "VerificationResult"
      (fun field x key v =>
         if json.keyIs key "matchPercentage" then
           let '(n, e) :=
             json.store (field "matchPercentage") (MatchPercentage x) v in
           ({| MatchPercentage := n; MatchedItems := MatchedItems x;
               UnmatchedItems := UnmatchedItems x; Notes := Notes x |}, e)
         else if json.keyIs key "matchedItems" then
           let '(l, e) :=
             json.store (field "matchedItems") (MatchedItems x) v in
           ({| MatchPercentage := MatchPercentage x; MatchedItems := l;
               UnmatchedItems := UnmatchedItems x; Notes := Notes x |}, e)
         else if json.keyIs key "unmatchedItems" then
           let '(l, e) :=
             json.store (field "unmatchedItems") (UnmatchedItems x) v in
           ({| MatchPercentage := MatchPercentage x; MatchedItems := MatchedItems x;
               UnmatchedItems := l; Notes := Notes x |}, e)
         else if json.keyIs key "notes" then
           let '(t, e) := json.store (field "notes") (Notes x) v in
           ({| MatchPercentage := MatchPercentage x; MatchedItems := MatchedItems x;
               UnmatchedItems := UnmatchedItems x; Notes := t |}, e)
         else (x, None))
}.

(** The format of the prompt, in three pieces; the middle one holds the
    double quotes of the sample JSON, written here as single quotes and
    put back by [str.q]. *)
Definition promptFormat : string :=
  "あなたはコードレビューの専門家です。以下のSPEC（仕様書）と実際のコードを比較して、一致度を評価してください。

## SPEC（仕様書）
%s

## 実際のコード
%s

## 評価基準
以下の観点で評価してください：
1. 画面構成: SPECに記載された要素がコードに存在するか
2. 状態管理: SPECに記載された状態やフックが使用されているか
3. 処理フロー: SPECに記載された処理フローがコードで実装されているか
4. バリデーション: SPECに記載されたバリデーションルールが実装されているか
5. エラーハンドリング: SPECに記載されたエラーケースが処理されているか

## 出力形式
以下のJSON形式で出力してください：
%s"
  ++ str.q "json
{
  'matchPercentage': <0-100の数値>,
  'matchedItems': ['一致している項目1', '一致している項目2', ...],
  'unmatchedItems': ['一致していない項目1', '一致していない項目2', ...],
  'notes': '補足コメント（未実装の機能や改善点など）'
}
"
  ++ "%s

JSONのみを出力してください。".

(** [buildVerificationPrompt].  [codeContents] lists the entries of the Go
    map in the order in which the [range] loop of this call visits them. *)
Definition buildVerificationPrompt (specContent : string)
           (codeContents : list (string * string)) : string :=
  let codeSection :=
    List.fold_left
      (fun acc entry =>
         acc ++ fmt.Sprintf "
### %s
```
%s
```
" [fmt.Str entry.1; fmt.Str entry.2])
      codeContents EmptyString in
  fmt.Sprintf promptFormat
    [fmt.Str specContent; fmt.Str codeSection; fmt.Str "```"; fmt.Str "```"].

(** The pattern of [parseVerificationResult]: a fence labelled json,
    spaces, the captured text taken as short as possible, spaces, a
    closing fence. *)
Definition jsonRegex : regexp.Regexp :=
  regexp.Cat (regexp.Lit "```json")
    (regexp.Cat (regexp.Star true regexp.perl_space)
       (regexp.Cat (regexp.Group 1 (regexp.Star false regexp.space_or_not))
          (regexp.Cat (regexp.Star true regexp.perl_space) (regexp.Lit "```")))).

(** [parseVerificationResult]. *)
Definition parseVerificationResult (text : string)
  : option VerificationResult * option error :=
  let matches := regexp.FindStringSubmatch jsonRegex text in
  let jsonStr :=
    if (2 <=? List.length matches)%nat then List.nth 1 matches EmptyString else text in
  match json.Unmarshal jsonStr (json.zero (T := VerificationResult)) with
  | (_, Some err) =>
      (None, Some (fmt.Errorf "failed to parse verification result: %w" [fmt.Err err]))
  | (result, None) => (Some result, None)
  end.

(** The method [Verify] of the provider, in a world that answers the
    request.  The deferred [resp.Body.Close()] has no part in what the
    method returns and is left out. *)
Definition Verify (p : ClaudeProvider) (ctx : option http.Context)
           (specContent : string) (codeContents : list (string * string))
           (w : http.World)
  : (option VerificationResult * option error) * http.World :=
  let prompt := buildVerificationPrompt specContent codeContents in
  let req := {| Model := model p;
                MaxTokens := 2000;
                Messages := [ {| Role := "user"; Content := prompt |} ] |} in
  match json.Marshal req with
  | (_, Some err) =>
      ((None, Some (fmt.Errorf "failed to marshal request: %w" [fmt.Err err])), w)
  | (reqBody, None) =>
      match http.NewRequestWithContext ctx "POST" claudeAPIURL reqBody with
      | inr err =>
          ((None, Some (fmt.Errorf "failed to create request: %w" [fmt.Err err])), w)
      | inl httpReq =>
          let httpReq := http.setHeader httpReq "Content-Type" "application/json" in
          let httpReq := http.setHeader httpReq "x-api-key" (apiKey p) in
          let httpReq := http.setHeader httpReq "anthropic-version" "2023-06-01" in
          let '(answer, w) := http.Do httpReq w in
          match answer with
          | inr err =>
              ((None, Some (fmt.Errorf "failed to send request: %w" [fmt.Err err])), w)
          | inl resp =>
              match http.ReadAll resp with
              | (_, Some err) =>
                  ((None, Some (fmt.Errorf "failed to read response: %w" [fmt.Err err])), w)
              | (body, None) =>
                  if negb (http.StatusCode resp =? http.StatusOK)%Z then
                    ((None, Some (fmt.Errorf "API error (status %d): %s"
                                    [fmt.Int (http.StatusCode resp); fmt.Str body])), w)
                  else
                    match json.Unmarshal body (json.zero (T := claudeResponse)) with
                    | (_, Some err) =>
                        ((None, Some (fmt.Errorf "failed to parse response: %w"
                                        [fmt.Err err])), w)
                    | (claudeResp, None) =>
                        match RespError claudeResp with
                        | Some e =>
                            ((None, Some (fmt.Errorf "API error: %s"
                                            [fmt.Str (Message e)])), w)
                        | None =>
                            match RespContent claudeResp with
                            | [] =>
                                ((None, Some (fmt.Errorf "empty response from API" [])), w)
                            | first :: _ => (parseVerificationResult (Text first), w)
                            end
                        end
                    end
              end
          end
      end
  end.

(** ** The contract in the words of the spec

    The definitions below do not come from the code: they restate what
    the spec says, to be compared with the code in Part II. *)

(** Spec 4.4: the payload is the interior of the first block fenced with
    the label json, up to the next closing fence and without the spaces
    around it; without such a block, it is the entire text. *)
Definition extractPayload (text : string) : string :=
  match str.Index text "```json" with
  | None => text
  | Some i =>
      let rest := str.drop (i + 7) text in
      match str.Index rest "```" with
      | None => text
      | Some j => str.TrimFunc regexp.perl_space (str.take j rest)
      end
  end.

(** Spec 4.4: the payload is parsed as the result shape; the operation
    fails, with no result, if it does not parse. *)
Definition decodePayload (payload : string)
  : option VerificationResult * option error :=
  match json.Unmarshal payload (json.zero (T := VerificationResult)) with
  | (_, Some err) =>
      (None, Some (wrapError ("failed to parse verification result: " ++ Error err) err))
  | (result, None) => (Some result, None)
  end.

(** Spec 6: the outbound request of a call, for a provider [p] and a
    context [c]. *)
Definition outboundRequest (p : ClaudeProvider) (c : http.Context)
           (specContent : string) (codeContents : list (string * string))
  : http.Request :=
  {| http.Method := "POST";
     http.URL := "https://api.anthropic.com/v1/messages";
     http.Header_ :=
       <["Anthropic-Version" := ["2023-06-01"]]>
         (<["X-Api-Key" := [apiKey p]]>
            (<["Content-Type" := ["application/json"]]> ∅));
     http.Body :=
       str.q "{'model':" ++ json.appendString (model p)
       ++ str.q ",'max_tokens':2000,'messages':[{'role':'user','content':"
       ++ json.appendString (buildVerificationPrompt specContent codeContents)
       ++ "}]}";
     http.ctx := c |}.

(** Spec 4.3 and 4.4: a response from which extraction starts, namely one
    with status 200 whose body decodes to an envelope without an error
    field and whose first content item has the text [text]. *)
Definition carriesText (resp : http.Response) (text : string) : Prop :=
  exists body envelope first others,
    http.ReadAll resp = (body, None) /\
    http.StatusCode resp = http.StatusOK /\
    json.Unmarshal body (json.zero (T := claudeResponse)) = (envelope, None) /\
    RespError envelope = None /\
    RespContent envelope = first :: others /\
    Text first = text.

(** A fence at the start of a line: the text begins with a triple
    backquote or has one right after a line feed. *)
Definition fenceAtLineStart (text : string) : Prop :=
  (exists rest, text = "```" ++ rest) \/
  (exists before rest, text = before ++ String "010" ("```" ++ rest)).

(** ** Fixtures: a provider and a world with a canned response *)

Definition testProvider : ClaudeProvider :=
  {| apiKey := "sk-test"; model := "claude-sonnet-4-20250514" |}.

(** The world that answers every request with the status [status] and
    the body [body]. *)
Definition cannedWorld (status : Z) (body : string) : http.World :=
  {| http.respond :=
       fun _ => inl {| http.StatusCode := status; http.ReadAll := (body, None) |};
     http.sent := [] |}.

(** A successful response whose only content item carries a fenced
    result, and the result it encodes. *)
Definition fencedBody : string :=
  str.q "{'content':[{'type':'text','text':'```json\n{\'matchPercentage\':80,\'matchedItems\':[\'login form\'],\'unmatchedItems\':[\'logout\'],\'notes\':\'ok\'}\n```'}]}".

Definition fencedInterior : string :=
  str.q "
{'matchPercentage':80,'matchedItems':['login form'],'unmatchedItems':['logout'],'notes':'ok'}
".

Definition fencedResult : VerificationResult :=
  {| MatchPercentage := 80; MatchedItems := ["login form"];
     UnmatchedItems := ["logout"]; Notes := "ok" |}.

(** A successful response whose result carries a percentage above 100. *)
Definition overBody : string :=
  str.q "{'content':[{'type':'text','text':'{\'matchPercentage\':150,\'matchedItems\':[],\'unmatchedItems\':[],\'notes\':\'\'}'}]}".

(** A successful response whose text is not JSON at all. *)
Definition proseBody : string :=
  str.q "{'content':[{'type':'text','text':'I could not compare them.'}]}".





(** ** The layout of the prompt, in the words of the format

    The three fixed parts of the prompt (before the spec, between the
    spec and the files, after the files) and the section of one file. *)
Definition fileSection (file : string * string) : string :=
  "
### " ++ file.1 ++ "
```
" ++ file.2 ++ "
```
".

Definition promptHead : string :=
  "あなたはコードレビューの専門家です。以下のSPEC（仕様書）と実際のコードを比較して、一致度を評価してください。

## SPEC（仕様書）
".

Definition promptMiddle : string :=
  "

## 実際のコード
".

Definition promptTail : string :=
  "

## 評価基準
以下の観点で評価してください：
1. 画面構成: SPECに記載された要素がコードに存在するか
2. 状態管理: SPECに記載された状態やフックが使用されているか
3. 処理フロー: SPECに記載された処理フローがコードで実装されているか
4. バリデーション: SPECに記載されたバリデーションルールが実装されているか
5. エラーハンドリング: SPECに記載されたエラーケースが処理されているか

## 出力形式
以下のJSON形式で出力してください：
```"
  ++ str.q "json
{
  'matchPercentage': <0-100の数値>,
  'matchedItems': ['一致している項目1', '一致している項目2', ...],
  'unmatchedItems': ['一致していない項目1', '一致していない項目2', ...],
  'notes': '補足コメント（未実装の機能や改善点など）'
}
"
  ++ "```

JSONのみを出力してください。".

(** ** Notions used in the proofs *)

(** What is left of the pattern once the capture has started at [s2], for
    a match that began at [s]: spaces, then the closing fence. *)
Definition closing (s s2 s3 : string) : option (string * list (nat * string)) :=
  regexp.star_greedy regexp.perl_space s3
    (fun s4 =>
       match str.CutPrefix s4 "```" with
       | Some s5 => Some (str.consumed s s5, [(1, str.consumed s2 s3)])
       | None => None
       end).

(** The value of a successful scan. *)
Definition outcome (r : json.value + error) : option json.value :=
  match r with
  | inl v => Some v
  | inr _ => None
  end.

(** A scanner without its count of bytes and without the text of its
    error: what the rest of a scan depends on. *)
Definition forget (s : json.scanner) : json.scanner :=
  json.mkScanner (json.step s) (json.parseState s) (json.literal s) (json.endTop s)
    (json.top s)
    (match json.err s with Some _ => Some (errorString EmptyString) | None => None end) 0.

(** The invariant of the scanner: once the top-level value is complete it
    only waits for the end of the input, and the error state is entered
    with an error. *)
Definition settled (s : json.scanner) : bool :=
  (negb (json.endTop s)
   || match json.step s with json.StEndTop | json.StError => true | _ => false end)
  && match json.step s, json.err s with
     | json.StError, None => false
     | _, _ => true
     end.



(** A percentage within the range of a 64-bit [int]. *)
Definition inRange (x : VerificationResult) : Prop :=
  (strconv.minInt64 <= MatchPercentage x <= strconv.maxInt64)%Z.


(* ================================================================== *)
(** * Part II: properties                                              *)
(* ================================================================== *)

(** ** Byte strings *)

(** Let [simpl] compute concatenations whose left operand is known. *)
#[local] Arguments String.append !s1 s2 : simpl nomatch.

Section StringFacts.

Lemma append_assoc (a b c : string) : (a ++ b) ++ c = a ++ (b ++ c).
Proof. induction a as [|x a IH]; cbn; [reflexivity | now f_equal]. Qed.

Lemma append_nil_r (a : string) : a ++ EmptyString = a.
Proof. induction a as [|x a IH]; cbn; [reflexivity | now f_equal]. Qed.

Lemma length_append (a b : string) :
  String.length (a ++ b) = String.length a + String.length b.
Proof. induction a as [|x a IH]; cbn; [reflexivity | now f_equal]. Qed.

Lemma HasPrefix_app (sub t : string) : str.HasPrefix (sub ++ t) sub = true.
Proof.
  induction sub as [|x sub IH]; simpl; [reflexivity |].
  now rewrite Ascii.eqb_refl, IH.
Qed.

Lemma CutPrefix_app (sub t : string) : str.CutPrefix (sub ++ t) sub = Some t.
Proof.
  induction sub as [|x sub IH]; simpl; [reflexivity |].
  now rewrite Ascii.eqb_refl, IH.
Qed.

Lemma CutPrefix_HasPrefix (s sub : string) :
  str.HasPrefix s sub = false -> str.CutPrefix s sub = None.
Proof.
  revert s; induction sub as [|x sub IH]; intros [|c s]; simpl; try discriminate;
    try reflexivity.
  destruct (Ascii.eqb c x); simpl; [apply IH | reflexivity].
Qed.

Lemma CutPrefix_Some (s sub t : string) :
  str.CutPrefix s sub = Some t -> s = sub ++ t.
Proof.
  revert s; induction sub as [|x sub IH]; intros [|c s]; simpl; try congruence.
  destruct (Ascii.eqb_spec c x) as [->|]; [|discriminate].
  intros H. now rewrite (IH _ H).
Qed.

Lemma HasPrefix_true (s sub : string) :
  str.HasPrefix s sub = true -> exists t, s = sub ++ t.
Proof.
  revert s; induction sub as [|x sub IH]; intros s; simpl.
  - exists s; reflexivity.
  - destruct s as [|c s]; [discriminate |].
    destruct (Ascii.eqb_spec c x) as [->|]; simpl; [|discriminate].
    intros H. destruct (IH _ H) as [t ->]. now exists t.
Qed.

Lemma Index_cons (c : ascii) (s sub : string) :
  str.Index (String c s) sub =
  if str.HasPrefix (String c s) sub then Some 0
  else option_map S (str.Index s sub).
Proof. reflexivity. Qed.

Lemma Index_here (s sub : string) :
  str.HasPrefix s sub = true -> str.Index s sub = Some 0.
Proof. intros H. destruct s; simpl; now rewrite H. Qed.

(** An occurrence is found. *)
Lemma Contains_app (a sub b : string) : str.Contains (a ++ sub ++ b) sub = true.
Proof.
  unfold str.Contains.
  induction a as [|x a IH]; simpl.
  - now rewrite Index_here by apply HasPrefix_app.
  - destruct (str.HasPrefix (String x (a ++ sub ++ b)) sub); [reflexivity |].
    destruct (str.Index (a ++ sub ++ b) sub); [reflexivity | discriminate].
Qed.

Lemma Contains_false_tail (c : ascii) (s sub : string) :
  str.Contains (String c s) sub = false ->
  str.HasPrefix (String c s) sub = false /\ str.Contains s sub = false.
Proof.
  unfold str.Contains. simpl.
  destruct (str.HasPrefix (String c s) sub); [discriminate |].
  destruct (str.Index s sub); simpl; [discriminate | auto].
Qed.

Lemma Contains_false_suffix (a b sub : string) :
  str.Contains (a ++ b) sub = false -> str.HasPrefix b sub = false.
Proof.
  induction a as [|x a IH]; simpl; intros H.
  - unfold str.Contains in H.
    destruct b; simpl in *; destruct (str.HasPrefix _ sub); congruence.
  - apply Contains_false_tail in H. tauto.
Qed.

(** [Index] finds the first occurrence: nothing starts before it. *)
Lemma Index_app_first (a t sub : string) :
  str.Index (a ++ t) sub = Some (String.length a) ->
  forall a1 a2, a = a1 ++ a2 -> a2 <> EmptyString -> str.HasPrefix (a2 ++ t) sub = false.
Proof.
  induction a as [|x a IH]; intros H a1 a2 E Hne.
  - destruct a1; destruct a2; simpl in E; congruence.
  - simpl in H.
    destruct (str.HasPrefix (String x (a ++ t)) sub) eqn:Hp; [discriminate |].
    destruct (str.Index (a ++ t) sub) as [n|] eqn:Hi; [|discriminate].
    simpl in H. injection H as ->.
    destruct a1 as [|y a1]; simpl in E.
    + subst a2. exact Hp.
    + injection E as -> E. eapply IH; eauto.
Qed.

Lemma Index_app_here (a t sub : string) :
  str.Index (a ++ t) sub = Some (String.length a) -> str.HasPrefix t sub = true.
Proof.
  induction a as [|x a IH]; simpl; intros H.
  - destruct t; simpl in *;
      destruct (str.HasPrefix _ sub) eqn:E; try congruence;
      destruct (str.Index _ sub); simpl in *; congruence.
  - destruct (str.HasPrefix (String x (a ++ t)) sub); [discriminate |].
    destruct (str.Index (a ++ t) sub) eqn:Hi; simpl in H; [|discriminate].
    injection H as ->. auto.
Qed.

Lemma consumed_app (a b : string) : str.consumed (a ++ b) b = a.
Proof.
  unfold str.consumed. rewrite length_append.
  replace (String.length a + String.length b - String.length b)
    with (String.length a) by lia.
  induction a as [|x a IH]; simpl.
  - destruct b; reflexivity.
  - now rewrite IH.
Qed.

Lemma consumed_cons (c : ascii) (a b : string) :
  str.consumed (String c (a ++ b)) b = String c a.
Proof. apply (consumed_app (String c a) b). Qed.

End StringFacts.

(** ** The pattern of [parseVerificationResult] *)

Section Pattern.

Import regexp.

Lemma match_here_jsonRegex (s : string) :
  match_here jsonRegex s =
  match str.CutPrefix s "```json" with
  | None => None
  | Some s1 =>
      star_greedy perl_space s1
        (fun s2 => star_lazy space_or_not s2 (closing s s2))
  end.
Proof. reflexivity. Qed.

Lemma space_or_not_any (c : ascii) : space_or_not c = true.
Proof. unfold space_or_not. now destruct (perl_space c). Qed.

(** The greedy loop settles after the leading spaces when the rest of
    the pattern matches from there. *)
Lemma star_greedy_trim {R} (s : string) (k : string -> option R) (r : R) :
  k (str.TrimLeftFunc perl_space s) = Some r ->
  star_greedy perl_space s k = Some r.
Proof.
  induction s as [|c s IH]; simpl; [auto |].
  destruct (perl_space c); [|auto].
  intros H. now rewrite (IH H).
Qed.

(** The greedy loop fails when the continuation fails after every
    prefix of spaces. *)
Lemma star_greedy_none {R} (s : string) (k : string -> option R) :
  (forall a b, s = a ++ b -> str.all perl_space a = true -> k b = None) ->
  star_greedy perl_space s k = None.
Proof.
  induction s as [|c s IH]; simpl; intros H.
  - apply (H EmptyString EmptyString); reflexivity.
  - destruct (perl_space c) eqn:Hc.
    + rewrite IH.
      * apply (H EmptyString (String c s)); reflexivity.
      * intros a b -> Ha. apply (H (String c a) b); [reflexivity |].
        simpl. now rewrite Hc.
    + apply (H EmptyString (String c s)); reflexivity.
Qed.

(** The lazy loop stops at the first place where the continuation
    succeeds. *)
Lemma star_lazy_first {R} (u rest : string) (k : string -> option R) (r : R) :
  (forall a b, u = a ++ b -> b <> EmptyString -> k (b ++ rest) = None) ->
  k rest = Some r ->
  star_lazy space_or_not (u ++ rest) k = Some r.
Proof.
  induction u as [|c u IH]; intros Hfail Hk.
  - simpl. destruct rest; simpl; now rewrite Hk.
  - assert (H0 := Hfail EmptyString (String c u) eq_refl ltac:(discriminate)).
    simpl in *. rewrite H0, space_or_not_any. apply IH; [|exact Hk].
    intros a b -> Hb. apply (Hfail (String c a) b); [reflexivity | exact Hb].
Qed.

Lemma star_lazy_none {R} (s : string) (k : string -> option R) :
  (forall a b, s = a ++ b -> k b = None) ->
  star_lazy space_or_not s k = None.
Proof.
  induction s as [|c s IH]; simpl; intros H.
  - now rewrite (H EmptyString EmptyString).
  - rewrite (H EmptyString (String c s)) by reflexivity.
    rewrite space_or_not_any. apply IH.
    intros a b ->. apply (H (String c a) b). reflexivity.
Qed.

(** Trimming, as a decomposition. *)
Lemma TrimLeft_split (s : string) :
  exists w, s = w ++ str.TrimLeftFunc perl_space s /\ str.all perl_space w = true.
Proof.
  induction s as [|c s (w & E & Hw)]; simpl.
  - now exists EmptyString.
  - destruct (perl_space c) eqn:Hc.
    + exists (String c w). simpl. rewrite Hc, Hw. now rewrite <- E.
    + now exists EmptyString.
Qed.

Lemma TrimRight_split (s : string) :
  exists w, s = str.TrimRightFunc perl_space s ++ w /\ str.all perl_space w = true.
Proof.
  induction s as [|c s (w & E & Hw)]; simpl.
  - now exists EmptyString.
  - destruct (str.TrimRightFunc perl_space s) as [|d t] eqn:Ht.
    + destruct (perl_space c) eqn:Hc.
      * exists (String c s). simpl in E. subst w. simpl. now rewrite Hc, Hw.
      * exists w. unfold str.of_byte. simpl in *. subst w. auto.
    + exists w. simpl in *. rewrite <- E. auto.
Qed.

(** No non-empty suffix of a right-trimmed string is made of spaces. *)
Lemma TrimRight_suffix (s a b : string) :
  str.TrimRightFunc perl_space s = a ++ b -> b <> EmptyString ->
  str.all perl_space b = false.
Proof.
  revert a b; induction s as [|c s IH]; simpl; unfold str.of_byte; intros a b E Hb.
  - destruct a; destruct b; simpl in E; congruence.
  - destruct (str.TrimRightFunc perl_space s) as [|d t] eqn:Ht.
    + destruct (perl_space c) eqn:Hc.
      * destruct a; destruct b; simpl in E; congruence.
      * destruct a as [|x a]; simpl in E.
        -- subst b. simpl. now rewrite Hc.
        -- destruct a; destruct b; simpl in E; congruence.
    + destruct a as [|x a]; simpl in E.
      * subst b. simpl.
        destruct (perl_space c); [|reflexivity].
        apply (IH EmptyString (String d t)); [reflexivity | discriminate].
      * injection E as -> E. now apply (IH a).
Qed.

(** Two ways of splitting one string: a prefix of spaces ends inside a
    part that is not made of spaces. *)
Lemma split_in_nonspace (b tail a' b' : string) :
  b ++ tail = a' ++ b' ->
  str.all perl_space a' = true -> str.all perl_space b = false ->
  exists b'', b'' <> EmptyString /\ b = a' ++ b'' /\ b' = b'' ++ tail.
Proof.
  revert b; induction a' as [|x a' IH]; intros b E Ha Hb.
  - exists b. simpl in *. repeat split; [|congruence].
    intros ->. discriminate.
  - destruct b as [|y b]; [discriminate |].
    simpl in E. injection E as -> E.
    simpl in Ha, Hb. apply andb_prop in Ha as [Hx Ha]. rewrite Hx in Hb.
    destruct (IH b E Ha Hb) as (b'' & Hne & -> & ->).
    now exists b''.
Qed.

Lemma TrimLeft_app (i t : string) :
  match t with String c _ => perl_space c = false | EmptyString => True end ->
  str.TrimLeftFunc perl_space (i ++ t) = str.TrimLeftFunc perl_space i ++ t.
Proof.
  intros Ht. induction i as [|c i IH]; simpl.
  - destruct t as [|c t]; simpl; [reflexivity | now rewrite Ht].
  - now destruct (perl_space c).
Qed.

Lemma TrimLeft_all (w t : string) :
  str.all perl_space w = true ->
  match t with String c _ => perl_space c = false | EmptyString => True end ->
  str.TrimLeftFunc perl_space (w ++ t) = t.
Proof.
  intros Hw Ht. induction w as [|c w IH]; simpl in *.
  - destruct t as [|c t]; simpl; [reflexivity | now rewrite Ht].
  - apply andb_prop in Hw as [-> Hw]. auto.
Qed.

(** At an opening fence whose closing fence is the first triple
    backquote after the label, the pattern matches the whole block and
    captures its interior without the spaces around it. *)
Lemma match_here_fence (interior post : string) :
  (forall a b, interior = a ++ b -> b <> EmptyString ->
               str.HasPrefix (b ++ "```" ++ post) "```" = false) ->
  match_here jsonRegex ("```json" ++ interior ++ "```" ++ post) =
  Some ("```json" ++ interior ++ "```",
        [(1, str.TrimFunc perl_space interior)]).
Proof.
  intros Hfirst.
  rewrite match_here_jsonRegex, CutPrefix_app.
  apply star_greedy_trim.
  rewrite TrimLeft_app by reflexivity.
  destruct (TrimLeft_split interior) as (w1 & E1 & Hw1).
  unfold str.TrimFunc.
  set (m := str.TrimLeftFunc perl_space interior) in *.
  destruct (TrimRight_split m) as (w2 & E2 & Hw2).
  assert (Hsuf := TrimRight_suffix m).
  set (core := str.TrimRightFunc perl_space m) in *.
  rewrite E2 at 1 2. rewrite !append_assoc.
  apply star_lazy_first.
  - intros a b Ecore Hb.
    apply star_greedy_none. intros a' b' E' Ha'.
    destruct (split_in_nonspace b _ a' b' E' Ha' (Hsuf a b Ecore Hb))
      as (b'' & Hne & Eb & ->).
    rewrite CutPrefix_HasPrefix; [reflexivity |].
    rewrite <- append_assoc.
    apply (Hfirst (w1 ++ a ++ a')).
    + rewrite E1, E2, Ecore, Eb. now rewrite !append_assoc.
    + destruct b''; [congruence | discriminate].
  - apply star_greedy_trim.
    rewrite TrimLeft_all by (exact Hw2 || reflexivity).
    rewrite CutPrefix_app, consumed_app.
    replace ("```json" ++ interior ++ "```" ++ post)
      with (("```json" ++ interior ++ "```") ++ post)
      by now rewrite !append_assoc.
    now rewrite consumed_app.
Qed.

Lemma match_here_no_fence (s : string) :
  str.HasPrefix s "```json" = false -> match_here jsonRegex s = None.
Proof. intros H. now rewrite match_here_jsonRegex, CutPrefix_HasPrefix. Qed.

(** A fence that is never closed does not match. *)
Lemma match_here_unclosed (rest : string) :
  str.Contains rest "```" = false ->
  match_here jsonRegex ("```json" ++ rest) = None.
Proof.
  intros Hno.
  rewrite match_here_jsonRegex, CutPrefix_app.
  apply star_greedy_none. intros a b -> _.
  apply star_lazy_none. intros a2 b2 ->.
  apply star_greedy_none. intros a3 b3 -> _.
  rewrite CutPrefix_HasPrefix; [reflexivity |].
  rewrite <- !append_assoc in Hno.
  now apply Contains_false_suffix in Hno.
Qed.

Lemma find_skip (re : Regexp) (pre t : string) :
  (forall a b, pre = a ++ b -> b <> EmptyString -> match_here re (b ++ t) = None) ->
  find re (pre ++ t) = find re t.
Proof.
  induction pre as [|c pre IH]; intros H; [reflexivity |].
  assert (H0 := H EmptyString (String c pre) eq_refl ltac:(discriminate)).
  change (String c pre ++ t) with (String c (pre ++ t)) in *.
  change (find re (String c (pre ++ t))) with
    (match match_here re (String c (pre ++ t)) with
     | Some m => Some m
     | None => find re (pre ++ t)
     end).
  rewrite H0. apply IH.
  intros a b -> Hb. apply (H (String c a) b); [reflexivity | exact Hb].
Qed.

Lemma HasPrefix_shorter (s : string) :
  str.HasPrefix s "```" = false -> str.HasPrefix s "```json" = false.
Proof.
  destruct s as [|c1 [|c2 [|c3 s]]]; simpl; try reflexivity.
  - now destruct (Ascii.eqb c1 "`").
  - destruct (Ascii.eqb c1 "`"); [|reflexivity].
    now destruct (Ascii.eqb c2 "`").
  - destruct (Ascii.eqb c1 "`"); [|reflexivity].
    destruct (Ascii.eqb c2 "`"); [|reflexivity].
    destruct (Ascii.eqb c3 "`"); [discriminate | reflexivity].
Qed.

Lemma Contains_shorter (s : string) :
  str.Contains s "```" = false -> str.Contains s "```json" = false.
Proof.
  induction s as [|c s IH]; intros H.
  - reflexivity.
  - apply Contains_false_tail in H as [Hp Hs].
    unfold str.Contains in *. rewrite Index_cons.
    rewrite (HasPrefix_shorter _ Hp).
    destruct (str.Index s "```json"); [now specialize (IH Hs) | reflexivity].
Qed.

Lemma find_cons (re : Regexp) (c : ascii) (s : string) :
  find re (String c s) =
  match match_here re (String c s) with
  | Some m => Some m
  | None => find re s
  end.
Proof. reflexivity. Qed.

(** Without the label there is no match anywhere. *)
Lemma find_none (s : string) :
  str.Contains s "```json" = false -> find jsonRegex s = None.
Proof.
  induction s as [|c s IH]; intros H; [reflexivity |].
  apply Contains_false_tail in H as [Hp Hs].
  now rewrite find_cons, (match_here_no_fence _ Hp), IH.
Qed.

Lemma find_unclosed (rest : string) :
  str.Contains rest "```" = false ->
  find jsonRegex ("```json" ++ rest) = None.
Proof.
  intros Hno.
  assert (Hm := match_here_unclosed rest Hno).
  assert (Hr := find_none rest (Contains_shorter rest Hno)).
  change ("```json" ++ rest) with
    (String "`" (String "`" (String "`" (String "j" (String "s"
       (String "o" (String "n" rest))))))) in *.
  rewrite find_cons, Hm.
  do 6 (rewrite find_cons, match_here_no_fence by reflexivity).
  exact Hr.
Qed.

End Pattern.

(** ** The JSON scanner *)

Ltac unfold_scanner :=
  cbv beta iota zeta delta
    [json.step_byte json.stateBeginValueOrEmpty json.stateBeginStringOrEmpty json.stateBeginString json.stateBeginValue json.stateInString json.stateInStringEsc json.stateInStringEscHex json.stateNeg json.state1 json.state0 json.stateDot json.stateDot0 json.stateE json.stateESign json.stateE0 json.stateWord json.stateWordEnd json.endNumber json.stateEndValue json.popParseState json.stateEndTop json.pushParseState json.continue json.begin_literal json.deliver json.error_at json.set_endTop json.set_step json.set_literal json.set_parseState json.set_top json.step json.parseState json.literal json.endTop json.top json.err json.bytes].

(** Case analysis on the tests of a step; the tests on the byte and on
    the parse stack are shared by the two runs that are compared. *)
Ltac split_cases :=
  repeat (match goal with
          | |- context [if ?b then _ else _] =>
              lazymatch b with
              | context [json.mkScanner] => fail
              | _ => destruct b
              end
          | |- context [match ?l with [] => _ | _ :: _ => _ end] =>
              is_var l; destruct l
          | |- context [match ?f with json.parseObjectKey _ _ => _ | _ => _ end] =>
              is_var f; destruct f
          end; unfold_scanner).


Section Scanner.

Import json.

#[local] Arguments quoteChar : simpl never.
#[local] Arguments unquote : simpl never.

Lemma feed_err (q : scanner) (data : string) (e : error) :
  err q = Some e -> feed q data = q.
Proof. intros H. destruct data; simpl; [reflexivity | now rewrite H]. Qed.

Lemma feed_app (q : scanner) (a b : string) :
  feed q (a ++ b) = feed (feed q a) b.
Proof.
  revert q; induction a as [|c a IH]; intros q; simpl; [reflexivity |].
  destruct (err q) eqn:E; [|apply IH].
  symmetry. now apply feed_err with e.
Qed.

Lemma eof_err (q : scanner) (e : error) : err q = Some e -> eof q = inr e.
Proof. intros H. unfold eof. now rewrite H. Qed.

Lemma outcome_inl (r : value + error) (v : value) :
  outcome r = Some v -> r = inl v.
Proof. destruct r; simpl; congruence. Qed.

Lemma forget_mk st ps lit et tp e b :
  forget (mkScanner st ps lit et tp e b) =
  mkScanner st ps lit et tp
    (match e with Some _ => Some (errorString EmptyString) | None => None end) 0.
Proof. reflexivity. Qed.

Lemma forget_step (s : scanner) (c : ascii) :
  forget (step_byte s c) = forget (step_byte (forget s) c).
Proof.
  destruct s as [st ps lit et tp e b].
  rewrite (forget_mk st ps lit et tp e b).
  destruct st; unfold_scanner; split_cases; reflexivity.
Qed.

Lemma forget_idem (s : scanner) : forget (forget s) = forget s.
Proof. destruct s as [st ps lit et tp [e|] b]; reflexivity. Qed.

Lemma forget_consume (s1 s2 : scanner) (c : ascii) :
  forget s1 = forget s2 -> forget (consume s1 c) = forget (consume s2 c).
Proof.
  intros H. unfold consume.
  rewrite forget_step, (forget_step (mkScanner _ _ _ _ _ _ (bytes s2 + 1))).
  do 2 f_equal.
  destruct s1, s2. unfold forget in *. simpl in *. congruence.
Qed.

Lemma forget_err (s1 s2 : scanner) :
  forget s1 = forget s2 -> (err s1 = None <-> err s2 = None).
Proof.
  destruct s1 as [? ? ? ? ? [e1|] ?], s2 as [? ? ? ? ? [e2|] ?];
    unfold forget; simpl; intros H; split; congruence.
Qed.

Lemma forget_feed (data : string) (s1 s2 : scanner) :
  forget s1 = forget s2 -> forget (feed s1 data) = forget (feed s2 data).
Proof.
  revert s1 s2; induction data as [|c data IH]; intros s1 s2 H; simpl; [exact H |].
  destruct (forget_err _ _ H) as [H1 H2].
  destruct (err s1) eqn:E1, (err s2) eqn:E2; auto.
  - specialize (H2 eq_refl). discriminate.
  - specialize (H1 eq_refl). discriminate.
  - apply IH. now apply forget_consume.
Qed.

Lemma outcome_eof_forget (s1 s2 : scanner) :
  forget s1 = forget s2 -> outcome (eof s1) = outcome (eof s2).
Proof.
  intros H.
  assert (Hstep : forget (step_byte s1 " ") = forget (step_byte s2 " "))
    by (rewrite forget_step, (forget_step s2); now rewrite H).
  unfold eof.
  destruct (step_byte s1 " ") as [st1' ps1' l1' et1' tp1' e1' b1'].
  destruct (step_byte s2 " ") as [st2' ps2' l2' et2' tp2' e2' b2'].
  destruct s1 as [st1 ps1 l1 et1 tp1 e1 b1], s2 as [st2 ps2 l2 et2 tp2 e2 b2].
  unfold forget in H, Hstep. simpl in *.
  injection H as -> -> -> -> -> He. injection Hstep as -> -> -> -> -> He'.
  destruct e1, e2; try discriminate; try reflexivity.
  destruct et2; simpl.
  - now destruct tp2.
  - destruct et2'; simpl; [now destruct tp2' |].
    now destruct e1', e2'.
Qed.

Lemma perl_space_cases (c : ascii) :
  regexp.perl_space c = true ->
  c = "009"%char \/ c = "010"%char \/ c = "012"%char \/ c = "013"%char
  \/ c = " "%char.
Proof.
  unfold regexp.perl_space. rewrite !orb_true_iff, !Ascii.eqb_eq. tauto.
Qed.

(** *** White space before and after the value *)

Lemma scan_skip_space (c : ascii) (s : string) (v : value) :
  regexp.perl_space c = true -> scan (String c s) = inl v -> scan s = inl v.
Proof.
  intros Hc H. apply outcome_inl.
  assert (Ho : outcome (scan (String c s)) = Some v) by now rewrite H.
  rewrite <- Ho. unfold scan. simpl feed.
  destruct (perl_space_cases c Hc) as [-> | [-> | [-> | [-> | ->]]]];
    try (apply outcome_eof_forget, forget_feed; reflexivity).
  exfalso. clear Ho. unfold scan in H. simpl in H.
  erewrite feed_err in H by reflexivity.
  discriminate.
Qed.

Lemma scan_skip_spaces (w t : string) (v : value) :
  str.all regexp.perl_space w = true -> scan (w ++ t) = inl v -> scan t = inl v.
Proof.
  induction w as [|c w IH]; simpl; intros Hw H; [exact H |].
  apply andb_prop in Hw as [Hc Hw].
  apply IH; [exact Hw |]. now apply scan_skip_space with c.
Qed.

Lemma settled_step (s : scanner) (c : ascii) :
  settled s = true -> settled (step_byte s c) = true.
Proof.
  destruct s as [st ps lit et tp e b]. intros H.
  destruct st, et; try discriminate H;
    unfold_scanner; split_cases; try reflexivity; exact H.
Qed.

Lemma settled_feed (data : string) (s : scanner) :
  settled s = true -> settled (feed s data) = true.
Proof.
  revert s; induction data as [|c data IH]; intros s H; simpl; [exact H |].
  destruct (err s); [exact H |].
  apply IH. unfold consume. apply settled_step.
  destruct s; exact H.
Qed.

Lemma trailing_space (q : scanner) (c : ascii) (v : value) :
  regexp.perl_space c = true -> settled q = true -> err q = None ->
  eof (consume q c) = inl v -> eof q = inl v.
Proof.
  intros Hc Hq He.
  destruct q as [st ps lit et tp e b]. simpl in He. subst e.
  destruct (perl_space_cases c Hc) as [-> | [-> | [-> | [-> | ->]]]];
    destruct st, et; try discriminate Hq;
    destruct ps as [|[] ps]; try (intros H; exact H); try discriminate;
    destruct tp; try (intros H; exact H); try discriminate.
Qed.

Lemma trailing_spaces (w : string) (q : scanner) (v : value) :
  str.all regexp.perl_space w = true -> settled q = true ->
  eof (feed q w) = inl v -> eof q = inl v.
Proof.
  revert q; induction w as [|c w IH]; intros q Hw Hq; simpl; [auto |].
  simpl in Hw. apply andb_prop in Hw as [Hc Hw].
  destruct (err q) eqn:He; [auto |]. intros H.
  apply (trailing_space q c v Hc Hq He).
  apply IH; [exact Hw | | exact H].
  unfold consume. apply settled_step. destruct q; exact Hq.
Qed.

Lemma TrimLeft_spaces (w : string) :
  str.all regexp.perl_space w = true -> str.TrimLeftFunc regexp.perl_space w = EmptyString.
Proof.
  induction w as [|c w IH]; simpl; [reflexivity |].
  intros H. apply andb_prop in H as [-> H]. auto.
Qed.

Lemma TrimRight_spaces (w : string) :
  str.all regexp.perl_space w = true -> str.TrimRightFunc regexp.perl_space w = EmptyString.
Proof.
  induction w as [|c w IH]; simpl; [reflexivity |].
  intros H. apply andb_prop in H as [-> H]. now rewrite IH.
Qed.

Lemma TrimRight_app_spaces (x w : string) :
  str.all regexp.perl_space w = true ->
  str.TrimRightFunc regexp.perl_space (x ++ w) = str.TrimRightFunc regexp.perl_space x.
Proof.
  intros Hw. induction x as [|c x IH]; simpl.
  - now apply TrimRight_spaces.
  - now rewrite IH.
Qed.

Lemma Trim_app_spaces (s w : string) :
  str.all regexp.perl_space w = true ->
  str.TrimFunc regexp.perl_space (s ++ w) = str.TrimFunc regexp.perl_space s.
Proof.
  intros Hw. unfold str.TrimFunc. induction s as [|c s IH]; simpl.
  - now rewrite TrimLeft_spaces.
  - destruct (regexp.perl_space c); [exact IH |].
    apply (TrimRight_app_spaces (String c s) w Hw).
Qed.

(** A text that scans still scans, to the same value, without the
    spaces (in the sense of the pattern) around it. *)
Lemma scan_trim (s : string) (v : value) :
  scan s = inl v -> scan (str.TrimFunc regexp.perl_space s) = inl v.
Proof.
  intros H. unfold str.TrimFunc.
  destruct (TrimLeft_split s) as (w1 & E1 & Hw1).
  rewrite E1 in H. apply scan_skip_spaces in H; [|exact Hw1].
  destruct (TrimRight_split (str.TrimLeftFunc regexp.perl_space s))
    as (w2 & E2 & Hw2).
  rewrite E2 in H. unfold scan in *. rewrite feed_app in H.
  apply (trailing_spaces w2); [exact Hw2 | | exact H].
  now apply settled_feed.
Qed.

Lemma Unmarshal_trim {T} `{Decodable T} (s : string) (cur x : T) :
  Unmarshal s cur = (x, None) ->
  Unmarshal (str.TrimFunc regexp.perl_space s) cur = (x, None).
Proof.
  unfold Unmarshal. destruct (scan s) as [v|e] eqn:E; [|discriminate].
  now rewrite (scan_trim s v E).
Qed.

(** *** A backquote at the start of a line *)

Lemma backquote_after_newline (q : scanner) :
  settled q = true -> err q = None -> err (consume q "010") = None ->
  err (consume (consume q "010") "`") <> None.
Proof.
  destruct q as [st ps lit et tp e b]. simpl. intros Hq ->.
  destruct st; destruct ps as [|[] ps]; simpl; try discriminate;
    intros _; try discriminate; destruct et; discriminate Hq.
Qed.

Lemma scan_fence_line (text : string) :
  fenceAtLineStart text -> exists e, scan text = inr e.
Proof.
  intros [[rest ->] | (before & rest & ->)]; unfold scan.
  - simpl. eexists. reflexivity.
  - rewrite feed_app.
    assert (Hq : settled (feed reset before) = true)
      by now apply settled_feed.
    set (q := feed reset before) in *.
    destruct (err q) eqn:E0.
    { erewrite feed_err by exact E0. eexists. apply eof_err. exact E0. }
    change (feed q (String "010" ("```" ++ rest))) with
      (match err q with
       | Some _ => q
       | None => feed (consume q "010") ("```" ++ rest)
       end).
    rewrite E0.
    destruct (err (consume q "010")) eqn:E1.
    { erewrite feed_err by exact E1. eexists. apply eof_err. exact E1. }
    change (feed (consume q "010") ("```" ++ rest)) with
      (match err (consume q "010") with
       | Some _ => consume q "010"
       | None => feed (consume (consume q "010") "`") ("``" ++ rest)
       end).
    rewrite E1.
    destruct (err (consume (consume q "010") "`")) eqn:E2.
    { erewrite feed_err by exact E2. eexists. apply eof_err. exact E2. }
    now destruct (backquote_after_newline q Hq E0 E1).
Qed.

(** *** A backquote outside a string literal *)















End Scanner.

(** ** Result extraction *)

Section Payload.

Lemma drop_app_length (a t : string) : str.drop (String.length a) (a ++ t) = t.
Proof. induction a as [|c a IH]; simpl; [now destruct t | exact IH]. Qed.

Lemma take_app_length (a t : string) : str.take (String.length a) (a ++ t) = a.
Proof. induction a as [|c a IH]; simpl; [now destruct t | now rewrite IH]. Qed.

(** [Index] splits the string at the first occurrence. *)
Lemma Index_split (s sub : string) (i : nat) :
  str.Index s sub = Some i ->
  exists pre rest,
    s = pre ++ sub ++ rest /\ String.length pre = i /\
    str.take i s = pre /\ str.drop (i + String.length sub) s = rest.
Proof.
  revert i; induction s as [|c s IH]; intros i H.
  - simpl in H. destruct (str.HasPrefix EmptyString sub) eqn:Hp; [|discriminate].
    injection H as <-. destruct sub; [|discriminate].
    now exists EmptyString, EmptyString.
  - rewrite Index_cons in H.
    destruct (str.HasPrefix (String c s) sub) eqn:Hp.
    + injection H as <-. destruct (HasPrefix_true _ _ Hp) as [t E].
      exists EmptyString, t. rewrite E. simpl. repeat split.
      apply drop_app_length.
    + destruct (str.Index s sub) as [i'|] eqn:Hi; [|discriminate].
      simpl in H. injection H as <-.
      destruct (IH i' eq_refl) as (pre & rest & E & Hl & Ht & Hd).
      exists (String c pre), rest. simpl. rewrite Hl, Ht, Hd.
      repeat split. now rewrite E at 1.
Qed.

Lemma FindStringSubmatch_find (s : string) :
  regexp.FindStringSubmatch jsonRegex s =
  match regexp.find jsonRegex s with
  | None => []
  | Some (whole, caps) => [whole; regexp.group caps 1]
  end.
Proof. reflexivity. Qed.

(** The pattern finds the first block fenced with the label json and
    closed by the next triple backquote. *)
Lemma FindStringSubmatch_fenced (pre interior post : string) :
  str.Index (pre ++ "```json" ++ interior ++ "```" ++ post) "```json"
  = Some (String.length pre) ->
  str.Index (interior ++ "```" ++ post) "```" = Some (String.length interior) ->
  regexp.FindStringSubmatch jsonRegex (pre ++ "```json" ++ interior ++ "```" ++ post)
  = ["```json" ++ interior ++ "```"; str.TrimFunc regexp.perl_space interior].
Proof.
  intros Hpre Hint.
  rewrite FindStringSubmatch_find, find_skip.
  - assert (Hm := match_here_fence interior post (Index_app_first _ _ _ Hint)).
    change ("```json" ++ interior ++ "```" ++ post) with
      (String "`" ("``json" ++ interior ++ "```" ++ post)) in *.
    rewrite find_cons, Hm. reflexivity.
  - intros a b E Hb. apply match_here_no_fence.
    exact (Index_app_first _ _ _ Hpre a b E Hb).
Qed.

Lemma FindStringSubmatch_unclosed (pre rest : string) :
  str.Index (pre ++ "```json" ++ rest) "```json" = Some (String.length pre) ->
  str.Contains rest "```" = false ->
  regexp.FindStringSubmatch jsonRegex (pre ++ "```json" ++ rest) = [].
Proof.
  intros Hpre Hno.
  rewrite FindStringSubmatch_find, find_skip.
  - now rewrite find_unclosed.
  - intros a b E Hb. apply match_here_no_fence.
    exact (Index_app_first _ _ _ Hpre a b E Hb).
Qed.

Lemma FindStringSubmatch_none (text : string) :
  str.Contains text "```json" = false ->
  regexp.FindStringSubmatch jsonRegex text = [].
Proof. intros H. now rewrite FindStringSubmatch_find, find_none. Qed.

(** [parseVerificationResult] decodes the payload it selects. *)
Lemma parseVerificationResult_eq (text : string) :
  parseVerificationResult text =
  decodePayload
    (let matches := regexp.FindStringSubmatch jsonRegex text in
     if (2 <=? List.length matches)%nat then List.nth 1 matches EmptyString else text).
Proof. reflexivity. Qed.

(** The code selects the payload that the spec describes. *)
Theorem parseVerificationResult_refines (text : string) :
  parseVerificationResult text = decodePayload (extractPayload text).
Proof.
  rewrite parseVerificationResult_eq. f_equal. unfold extractPayload.
  destruct (str.Index text "```json") as [i|] eqn:Ei.
  - destruct (Index_split _ _ _ Ei) as (pre & rest & -> & Hl & _ & Hd).
    change (String.length "```json") with 7 in Hd. rewrite Hd. rewrite <- Hl in Ei.
    destruct (str.Index rest "```") as [j|] eqn:Ej.
    + destruct (Index_split _ _ _ Ej) as (interior & post & -> & Hl' & Ht & _).
      rewrite Ht. rewrite <- Hl' in Ej.
      now rewrite (FindStringSubmatch_fenced pre interior post Ei Ej).
    + rewrite FindStringSubmatch_unclosed; [reflexivity | exact Ei |].
      unfold str.Contains. now rewrite Ej.
  - rewrite FindStringSubmatch_none; [reflexivity |].
    unfold str.Contains. now rewrite Ei.
Qed.

Lemma extractPayload_fenced (pre interior post : string) :
  str.Index (pre ++ "```json" ++ interior ++ "```" ++ post) "```json"
  = Some (String.length pre) ->
  str.Index (interior ++ "```" ++ post) "```" = Some (String.length interior) ->
  extractPayload (pre ++ "```json" ++ interior ++ "```" ++ post)
  = str.TrimFunc regexp.perl_space interior.
Proof.
  intros Hpre Hint. unfold extractPayload. rewrite Hpre.
  replace (str.drop (String.length pre + 7) (pre ++ "```json" ++ interior ++ "```" ++ post))
    with (interior ++ "```" ++ post).
  - rewrite Hint. now rewrite take_app_length.
  - rewrite <- (drop_app_length (pre ++ "```json") (interior ++ "```" ++ post)) at 1.
    rewrite length_append, append_assoc. reflexivity.
Qed.

Lemma extractPayload_unlabelled (text : string) :
  str.Contains text "```json" = false -> extractPayload text = text.
Proof.
  unfold extractPayload, str.Contains.
  now destruct (str.Index text "```json").
Qed.

Lemma decodePayload_ok (payload : string) (result : VerificationResult) :
  json.Unmarshal payload json.zero = (result, None) ->
  decodePayload payload = (Some result, None).
Proof. unfold decodePayload. now intros ->. Qed.

Lemma decodePayload_fail (payload : string) (partial : VerificationResult)
      (e : error) :
  json.Unmarshal payload json.zero = (partial, Some e) ->
  decodePayload payload
  = (None, Some (wrapError ("failed to parse verification result: " ++ Error e) e)).
Proof. unfold decodePayload. now intros ->. Qed.

End Payload.

(** ** The call *)

Section Call.

Variables (p : ClaudeProvider) (c : http.Context).
Variables (specContent : string) (codeContents : list (string * string)).

(** The request that [Verify] builds is the one of the spec. *)
Lemma request_built :
  let prompt := buildVerificationPrompt specContent codeContents in
  let req := {| Model := model p; MaxTokens := 2000;
                Messages := [ {| Role := "user"; Content := prompt |} ] |} in
  json.Marshal req =
    (http.Body (outboundRequest p c specContent codeContents), None) /\
  forall body,
    body = http.Body (outboundRequest p c specContent codeContents) ->
    match http.NewRequestWithContext (Some c) "POST" claudeAPIURL body with
    | inl r =>
        http.setHeader
          (http.setHeader (http.setHeader r "Content-Type" "application/json")
             "x-api-key" (apiKey p))
          "anthropic-version" "2023-06-01"
        = outboundRequest p c specContent codeContents
    | inr _ => False
    end.
Proof.
  split.
  - unfold json.Marshal. f_equal.
    unfold outboundRequest, http.Body.
    repeat (unfold json.member;
            cbn [json.encode Encodable_claudeRequest Encodable_claudeMessage
                   json.Encodable_slice json.Encodable_string json.Encodable_int
                   json.join Model MaxTokens Messages Role Content]).
    generalize (json.appendString (model p)).
    generalize (json.appendString (buildVerificationPrompt specContent codeContents)).
    intros B A.
    rewrite !append_assoc. reflexivity.
  - intros body ->. unfold outboundRequest. cbn [http.Body].
    match goal with
    | |- context [http.NewRequestWithContext _ _ _ ?b] => generalize b
    end.
    intros body. reflexivity.
Qed.

(** [Verify], step by step, for a context that is not nil. *)
Lemma Verify_unfold (w : http.World) :
  Verify p (Some c) specContent codeContents w =
  (match http.respond w (outboundRequest p c specContent codeContents) with
   | inr err => (None, Some (wrapError ("failed to send request: " ++ Error err) err))
   | inl resp =>
       match http.ReadAll resp with
       | (_, Some err) =>
           (None, Some (wrapError ("failed to read response: " ++ Error err) err))
       | (body, None) =>
           if negb (http.StatusCode resp =? http.StatusOK)%Z then
             (None, Some (errorString
                            ("API error (status " ++ strconv.Itoa (http.StatusCode resp)
                             ++ "): " ++ body)))
           else
             match json.Unmarshal body (json.zero (T := claudeResponse)) with
             | (_, Some err) =>
                 (None, Some (wrapError ("failed to parse response: " ++ Error err) err))
             | (claudeResp, None) =>
                 match RespError claudeResp with
                 | Some e => (None, Some (errorString ("API error: " ++ Message e)))
                 | None =>
                     match RespContent claudeResp with
                     | [] => (None, Some (errorString "empty response from API"))
                     | first :: _ => parseVerificationResult (Text first)
                     end
                 end
             end
       end
   end,
   {| http.respond := http.respond w;
      http.sent := http.sent w ++ [outboundRequest p c specContent codeContents] |}).
Proof.
  destruct request_built as [Hm Hr].
  unfold Verify. cbv zeta in Hm |- *. rewrite Hm.
  specialize (Hr _ eq_refl).
  destruct (http.NewRequestWithContext _ _ _ _) as [r|]; [|contradiction].
  rewrite Hr. unfold http.Do.
  destruct (http.respond w _) as [resp|err]; [|reflexivity].
  destruct (http.ReadAll resp) as [body [err|]]; [reflexivity |].
  destruct (negb _); [reflexivity |].
  destruct (json.Unmarshal body json.zero) as [claudeResp [err|]]; [reflexivity |].
  destruct (RespError claudeResp); [reflexivity |].
  now destruct (RespContent claudeResp).
Qed.

End Call.

(** ** The claims *)

(** From a response that carries a text, [Verify] returns what result
    extraction makes of the text. *)
Lemma Verify_carriesText (p : ClaudeProvider) (c : http.Context)
      (specContent : string) (codeContents : list (string * string))
      (w : http.World) (resp : http.Response) (text : string) :
  http.respond w (outboundRequest p c specContent codeContents) = inl resp ->
  carriesText resp text ->
  fst (Verify p (Some c) specContent codeContents w) = parseVerificationResult text.
Proof.
  intros Hresp (body & envelope & first & others & Hb & Hs & Hu & He & Hc & <-).
  rewrite Verify_unfold. cbn [fst].
  rewrite Hresp, Hb, Hs.
  change (negb (http.StatusOK =? http.StatusOK)%Z) with false. cbv iota.
  now rewrite Hu, He, Hc.
Qed.

Section Bounds.

Lemma ParseInt_range (s : string) (v : Z) :
  strconv.ParseInt s = Some v ->
  (strconv.minInt64 <= v <= strconv.maxInt64)%Z.
Proof.
  unfold strconv.ParseInt.
  destruct (match s with
            | String "-" s' => (true, s')
            | String "+" s' => (false, s')
            | _ => (false, s)
            end) as [neg body].
  destruct body; [discriminate |].
  destruct (strconv.parse_digits _ _) as [n|]; [|discriminate].
  destruct (_ && _) eqn:E; [|discriminate].
  intros [= <-]. apply andb_prop in E as [E1 E2].
  split; now apply Z.leb_le.
Qed.

Lemma fold_left_invariant {A B} (P : A -> Prop) (f : A -> B -> A) (l : list B) (a : A) :
  P a -> (forall x y, P x -> P (f x y)) -> P (List.fold_left f l a).
Proof. revert a; induction l as [|y l IH]; simpl; auto. Qed.

Lemma Unmarshal_inRange (payload : string) (r : VerificationResult)
      (e : option error) :
  json.Unmarshal payload json.zero = (r, e) -> inRange r.
Proof.
  unfold json.Unmarshal.
  destruct (json.scan payload) as [v|err].
  2:{ intros [= <- _]. unfold inRange, strconv.minInt64, strconv.maxInt64.
      simpl. lia. }
  cbn [json.store Decodable_VerificationResult]. unfold json.storeStruct.
  assert (H0 : inRange json.zero)
    by (unfold inRange, strconv.minInt64, strconv.maxInt64; simpl; lia).
  destruct v; try (intros [= <- _]; exact H0).
  intros H.
  match type of H with
  | List.fold_left ?f ?l ?a = _ =>
      assert (Hinv : inRange (List.fold_left f l a).1)
  end.
  { apply (fold_left_invariant (fun acc => inRange acc.1)); [exact H0 |].
    intros [x ex] [k v] Hx. cbn [fst snd].
    repeat match goal with
           | |- context [if ?b then _ else _] => destruct b
           end; try exact Hx.
    - cbn [json.store json.Decodable_int].
      destruct v; try exact Hx.
      destruct (strconv.ParseInt lit) eqn:Ep; [|exact Hx].
      exact (ParseInt_range _ _ Ep).
    - destruct (json.store _ _ _); exact Hx.
    - destruct (json.store _ _ _); exact Hx.
    - destruct (json.store _ _ _); exact Hx. }
  now rewrite H in Hinv.
Qed.

End Bounds.

Lemma Contains_suffix (a sub : string) : str.Contains (a ++ sub) sub = true.
Proof.
  rewrite <- (append_nil_r sub) at 1. apply Contains_app.
Qed.

(** *** C4 *)

(** C4. Constructing a client with the empty credential fails with the
    configuration error "API key is required" and yields no client; with
    any other credential it succeeds, and the client holds the credential
    and the fixed model identifier. *)
Theorem C4_construction (key : string) :
  (key = EmptyString ->
   NewClaudeProvider key = (None, Some (errorString "API key is required"))) /\
  (key <> EmptyString ->
   NewClaudeProvider key
   = (Some {| apiKey := key; model := "claude-sonnet-4-20250514" |}, None)).
Proof.
  unfold NewClaudeProvider. split.
  - now intros ->.
  - intros H. apply String.eqb_neq in H. now rewrite H.
Qed.

Lemma C4_construction_witness :
  NewClaudeProvider EmptyString = (None, Some (errorString "API key is required")) /\
  NewClaudeProvider "sk-test" = (Some testProvider, None).
Proof.
  split.
  - apply (proj1 (C4_construction EmptyString)). reflexivity.
  - apply (proj2 (C4_construction "sk-test")). discriminate.
Defined.

(** *** C3 *)

(** C3. On a response with status 200 whose envelope has no error field,
    [Verify] goes on to the content: its outcome is the one of result
    extraction on the first content item (or the empty-response error).
    On any other status, [Verify] fails without a result, and the message
    of its error is "API error (status N): " followed by the raw body, so
    that it contains both the status code and the body. *)
Theorem C3_status (p : ClaudeProvider) (c : http.Context) (specContent : string)
        (codeContents : list (string * string)) (w : http.World)
        (resp : http.Response) (body : string) :
  http.respond w (outboundRequest p c specContent codeContents) = inl resp ->
  http.ReadAll resp = (body, None) ->
  (http.StatusCode resp = http.StatusOK ->
   forall envelope,
     json.Unmarshal body json.zero = (envelope, None) ->
     RespError envelope = None ->
     fst (Verify p (Some c) specContent codeContents w)
     = match RespContent envelope with
       | [] => (None, Some (errorString "empty response from API"))
       | first :: _ => parseVerificationResult (Text first)
       end) /\
  (http.StatusCode resp <> http.StatusOK ->
   exists e,
     fst (Verify p (Some c) specContent codeContents w) = (None, Some e) /\
     Error e = "API error (status " ++ strconv.Itoa (http.StatusCode resp)
               ++ "): " ++ body /\
     str.Contains (Error e) (strconv.Itoa (http.StatusCode resp)) = true /\
     str.Contains (Error e) body = true).
Proof.
  intros Hresp Hbody. rewrite Verify_unfold. cbn [fst].
  rewrite Hresp, Hbody. split.
  - intros -> envelope Hu He.
    change (negb (http.StatusOK =? http.StatusOK)%Z) with false. cbv iota.
    now rewrite Hu, He.
  - intros Hs. apply Z.eqb_neq in Hs. rewrite Hs. cbn [negb].
    eexists. split; [reflexivity |]. cbn [Error]. split; [reflexivity |]. split.
    + apply (Contains_app "API error (status "
               (strconv.Itoa (http.StatusCode resp)) ("): " ++ body)).
    + rewrite <- !append_assoc. apply Contains_suffix.
Qed.

Lemma C3_status_witness :
  exists e,
    fst (Verify testProvider (Some http.Background) "spec" [] (cannedWorld 500 "oops"))
    = (None, Some e) /\
    Error e = "API error (status 500): oops" /\
    str.Contains (Error e) "500" = true /\
    str.Contains (Error e) "oops" = true.
Proof.
  apply (proj2 (C3_status testProvider http.Background "spec" []
                  (cannedWorld 500 "oops")
                  {| http.StatusCode := 500; http.ReadAll := ("oops", None) |}
                  "oops" eq_refl eq_refl)).
  discriminate.
Defined.

(** *** C6 *)

(** C6. On a response that passed the status check and whose body decodes
    to an envelope with an error field, [Verify] fails without a result,
    and the message of its error is "API error: " followed by the message
    the provider reported. *)
Theorem C6_provider_error (p : ClaudeProvider) (c : http.Context)
        (specContent : string) (codeContents : list (string * string))
        (w : http.World) (resp : http.Response) (body : string)
        (envelope : claudeResponse) (reported : apiError) :
  http.respond w (outboundRequest p c specContent codeContents) = inl resp ->
  http.ReadAll resp = (body, None) ->
  http.StatusCode resp = http.StatusOK ->
  json.Unmarshal body json.zero = (envelope, None) ->
  RespError envelope = Some reported ->
  exists e,
    fst (Verify p (Some c) specContent codeContents w) = (None, Some e) /\
    Error e = "API error: " ++ Message reported /\
    str.Contains (Error e) (Message reported) = true.
Proof.
  intros Hresp Hbody Hs Hu He. rewrite Verify_unfold. cbn [fst].
  rewrite Hresp, Hbody, Hs.
  change (negb (http.StatusOK =? http.StatusOK)%Z) with false. cbv iota.
  rewrite Hu, He. eexists. split; [reflexivity |]. cbn [Error].
  split; [reflexivity |].
  apply Contains_suffix.
Qed.

Lemma C6_provider_error_witness :
  exists e,
    fst (Verify testProvider (Some http.Background) "spec" []
           (cannedWorld 200 (str.q "{'error':{'message':'rate limited'}}")))
    = (None, Some e) /\
    Error e = "API error: rate limited" /\
    str.Contains (Error e) "rate limited" = true.
Proof.
  apply (C6_provider_error testProvider http.Background "spec" []
           (cannedWorld 200 (str.q "{'error':{'message':'rate limited'}}"))
           {| http.StatusCode := 200;
              http.ReadAll := (str.q "{'error':{'message':'rate limited'}}", None) |}
           (str.q "{'error':{'message':'rate limited'}}")
           {| RespContent := [];
              RespError := Some {| ErrType := EmptyString; Message := "rate limited" |} |}
           {| ErrType := EmptyString; Message := "rate limited" |});
    reflexivity.
Defined.

(** *** C7 *)

(** C7. On a response that passed the status check and whose body decodes
    to an envelope with no error field and no content item, [Verify]
    fails with the error "empty response from API" and without a result. *)
Theorem C7_empty_content (p : ClaudeProvider) (c : http.Context)
        (specContent : string) (codeContents : list (string * string))
        (w : http.World) (resp : http.Response) (body : string)
        (envelope : claudeResponse) :
  http.respond w (outboundRequest p c specContent codeContents) = inl resp ->
  http.ReadAll resp = (body, None) ->
  http.StatusCode resp = http.StatusOK ->
  json.Unmarshal body json.zero = (envelope, None) ->
  RespError envelope = None ->
  RespContent envelope = [] ->
  fst (Verify p (Some c) specContent codeContents w)
  = (None, Some (errorString "empty response from API")).
Proof.
  intros Hresp Hbody Hs Hu He Hc. rewrite Verify_unfold. cbn [fst].
  rewrite Hresp, Hbody, Hs.
  change (negb (http.StatusOK =? http.StatusOK)%Z) with false. cbv iota.
  now rewrite Hu, He, Hc.
Qed.

Lemma C7_empty_content_witness :
  fst (Verify testProvider (Some http.Background) "spec" []
         (cannedWorld 200 (str.q "{'content':[]}")))
  = (None, Some (errorString "empty response from API")).
Proof.
  apply (C7_empty_content testProvider http.Background "spec" []
           (cannedWorld 200 (str.q "{'content':[]}"))
           {| http.StatusCode := 200; http.ReadAll := (str.q "{'content':[]}", None) |}
           (str.q "{'content':[]}")
           {| RespContent := []; RespError := None |});
    reflexivity.
Defined.

(** *** C1 *)

(** C1. When the first content item's text holds a block fenced with the
    label json (the first occurrence of the label, closed by the next
    triple backquote) whose interior is valid JSON for the result shape,
    [Verify] returns exactly the result that the interior encodes: the
    interior of that block is what the decoder receives. *)
Theorem C1_fenced_result (p : ClaudeProvider) (c : http.Context)
        (specContent : string) (codeContents : list (string * string))
        (w : http.World) (resp : http.Response)
        (pre interior post : string) (result : VerificationResult) :
  http.respond w (outboundRequest p c specContent codeContents) = inl resp ->
  carriesText resp (pre ++ "```json" ++ interior ++ "```" ++ post) ->
  str.Index (pre ++ "```json" ++ interior ++ "```" ++ post) "```json"
  = Some (String.length pre) ->
  str.Index (interior ++ "```" ++ post) "```" = Some (String.length interior) ->
  json.Unmarshal interior json.zero = (result, None) ->
  fst (Verify p (Some c) specContent codeContents w) = (Some result, None).
Proof.
  intros Hresp Htext Hpre Hint Hvalid.
  rewrite (Verify_carriesText p c specContent codeContents w resp _ Hresp Htext).
  rewrite parseVerificationResult_refines, (extractPayload_fenced _ _ _ Hpre Hint).
  apply decodePayload_ok. now apply Unmarshal_trim.
Qed.

Lemma C1_fenced_result_witness :
  fst (Verify testProvider (Some http.Background) "spec" [] (cannedWorld 200 fencedBody))
  = (Some fencedResult, None).
Proof.
  apply (C1_fenced_result testProvider http.Background "spec" []
           (cannedWorld 200 fencedBody)
           {| http.StatusCode := 200; http.ReadAll := (fencedBody, None) |}
           EmptyString fencedInterior EmptyString fencedResult).
  - reflexivity.
  - exists fencedBody,
      {| RespContent := [ {| Type_ := "text";
                             Text := "```json" ++ fencedInterior ++ "```" |} ];
         RespError := None |},
      {| Type_ := "text"; Text := "```json" ++ fencedInterior ++ "```" |}, [].
    repeat split; vm_compute; reflexivity.
  - vm_compute; reflexivity.
  - vm_compute; reflexivity.
  - vm_compute; reflexivity.
Defined.

(** *** C2 *)

Lemma HasPrefix_fence_pad (x : string) :
  x <> EmptyString -> str.HasPrefix x "```" = false ->
  str.HasPrefix (x ++ "
```") "```" = false.
Proof.
  destruct x as [|c1 [|c2 [|c3 x]]]; simpl; try congruence; intros _;
    repeat match goal with
           | |- context [Ascii.eqb ?a "`"] => destruct (Ascii.eqb a "`")
           end; simpl; congruence.
Qed.

Lemma Index_fence_pad (s : string) :
  str.Contains s "```" = false ->
  str.Index (s ++ "
```") "```" = Some (String.length s + 1).
Proof.
  induction s as [|c s IH]; intros H; [reflexivity |].
  apply Contains_false_tail in H as [Hp Hs].
  change (String c s ++ "
```") with (String c (s ++ "
```")).
  rewrite Index_cons.
  assert (Hp' := HasPrefix_fence_pad (String c s) ltac:(discriminate) Hp).
  change (String c s ++ "
```") with (String c (s ++ "
```")) in Hp'.
  rewrite Hp', (IH Hs). reflexivity.
Qed.

Lemma Trim_pad (s : string) :
  str.TrimFunc regexp.perl_space (String "010" (s ++ "
")) = str.TrimFunc regexp.perl_space s.
Proof.
  change (str.TrimFunc regexp.perl_space (String "010" (s ++ "
"))) with (str.TrimFunc regexp.perl_space (s ++ "
")).
  now apply Trim_app_spaces.
Qed.

(** C2. A string that is itself valid JSON for the result shape and holds
    no triple backquote is extracted to the same result whether it is
    given as it is or wrapped in a fence labelled json. *)
Theorem C2_fence_optional (s : string) (result : VerificationResult) :
  json.Unmarshal s json.zero = (result, None) ->
  str.Contains s "```" = false ->
  parseVerificationResult s = (Some result, None) /\
  parseVerificationResult ("```json
" ++ s ++ "
```") = parseVerificationResult s.
Proof.
  intros Hvalid Hno.
  assert (Hplain : parseVerificationResult s = (Some result, None)).
  { rewrite parseVerificationResult_refines, extractPayload_unlabelled
      by now apply Contains_shorter.
    now apply decodePayload_ok. }
  split; [exact Hplain |]. rewrite Hplain.
  set (interior := String "010" (s ++ "
")).
  replace ("```json
" ++ s ++ "
```") with (EmptyString ++ "```json" ++ interior ++ "```" ++ EmptyString).
  2:{ unfold interior. cbn. now rewrite !append_assoc. }
  rewrite parseVerificationResult_refines, extractPayload_fenced.
  - apply decodePayload_ok.
    unfold interior. rewrite Trim_pad.
    now apply Unmarshal_trim.
  - reflexivity.
  - unfold interior. rewrite append_nil_r.
    change (String "010" (s ++ "
") ++ "```") with (String "010" ((s ++ "
") ++ "```")).
    rewrite append_assoc, Index_cons.
    change ("
" ++ "```") with "
```".
    rewrite (Index_fence_pad s Hno). cbn.
    rewrite length_append. cbn. reflexivity.
Qed.

Lemma C2_fence_optional_witness :
  parseVerificationResult (str.q "{'matchPercentage':80,'notes':'ok'}")
  = (Some {| MatchPercentage := 80; MatchedItems := [];
             UnmatchedItems := []; Notes := "ok" |}, None) /\
  parseVerificationResult ("```json
" ++ str.q "{'matchPercentage':80,'notes':'ok'}" ++ "
```") = parseVerificationResult (str.q "{'matchPercentage':80,'notes':'ok'}").
Proof.
  apply (C2_fence_optional (str.q "{'matchPercentage':80,'notes':'ok'}")); reflexivity.
Defined.

(** *** C8 *)

(** C8. When the payload extracted from the text does not decode to the
    result shape, [Verify] fails with the error "failed to parse
    verification result: ..." that wraps the decoder's error, and the
    result it returns is nil, whatever the decoder had filled in. *)
Theorem C8_no_partial_result (p : ClaudeProvider) (c : http.Context)
        (specContent : string) (codeContents : list (string * string))
        (w : http.World) (resp : http.Response) (text : string)
        (partial : VerificationResult) (e : error) :
  http.respond w (outboundRequest p c specContent codeContents) = inl resp ->
  carriesText resp text ->
  json.Unmarshal (extractPayload text) json.zero = (partial, Some e) ->
  fst (Verify p (Some c) specContent codeContents w)
  = (None, Some (wrapError ("failed to parse verification result: " ++ Error e) e)).
Proof.
  intros Hresp Htext Hbad.
  rewrite (Verify_carriesText p c specContent codeContents w resp _ Hresp Htext).
  rewrite parseVerificationResult_refines.
  now apply decodePayload_fail with partial.
Qed.

Lemma C8_no_partial_result_witness :
  fst (Verify testProvider (Some http.Background) "spec" []
         (cannedWorld 200
            (str.q "{'content':[{'text':'{\'matchPercentage\':80,\'notes\':7}'}]}")))
  = (None,
     Some (wrapError
             ("failed to parse verification result: "
              ++ Error (UnmarshalTypeError "number" "string" "VerificationResult" "notes"))
             (UnmarshalTypeError "number" "string" "VerificationResult" "notes"))).
Proof.
  apply (C8_no_partial_result testProvider http.Background "spec" []
           (cannedWorld 200
              (str.q "{'content':[{'text':'{\'matchPercentage\':80,\'notes\':7}'}]}"))
           {| http.StatusCode := 200;
              http.ReadAll :=
                (str.q "{'content':[{'text':'{\'matchPercentage\':80,\'notes\':7}'}]}",
                 None) |}
           (str.q "{'matchPercentage':80,'notes':7}")
           {| MatchPercentage := 80; MatchedItems := []; UnmatchedItems := [];
              Notes := EmptyString |}).
  - reflexivity.
  - exists (str.q "{'content':[{'text':'{\'matchPercentage\':80,\'notes\':7}'}]}"),
      {| RespContent := [ {| Type_ := EmptyString;
                             Text := str.q "{'matchPercentage':80,'notes':7}" |} ];
         RespError := None |},
      {| Type_ := EmptyString; Text := str.q "{'matchPercentage':80,'notes':7}" |}, [].
    repeat split; vm_compute; reflexivity.
  - vm_compute; reflexivity.
Defined.

(** *** C5 *)

Lemma Verify_nil_context (p : ClaudeProvider) (specContent : string)
      (codeContents : list (string * string)) (w : http.World) :
  Verify p None specContent codeContents w
  = ((None,
      Some (wrapError "failed to create request: net/http: nil Context"
              (errorString "net/http: nil Context"))), w).
Proof.
  destruct (request_built p http.Background specContent codeContents) as [Hm _].
  unfold Verify. cbv zeta in Hm |- *. rewrite Hm.
  generalize (http.Body (outboundRequest p http.Background specContent codeContents)).
  intros body. reflexivity.
Qed.

(** C5, as the code has it. A result returned by a successful [Verify] is
    exactly what the decoder read from the payload of the response, with
    no check of the range 0..100: its percentage is whatever integer the
    payload holds, within the range of a 64-bit [int]. *)
Theorem C5_percentage_as_decoded (p : ClaudeProvider) (ctx : option http.Context)
        (specContent : string) (codeContents : list (string * string))
        (w : http.World) (r : VerificationResult) :
  fst (Verify p ctx specContent codeContents w) = (Some r, None) ->
  (exists c resp text,
      ctx = Some c /\
      http.respond w (outboundRequest p c specContent codeContents) = inl resp /\
      carriesText resp text /\
      json.Unmarshal (extractPayload text) json.zero = (r, None)) /\
  (strconv.minInt64 <= MatchPercentage r <= strconv.maxInt64)%Z.
Proof.
  intros H.
  assert (Hex : exists c resp text,
             ctx = Some c /\
             http.respond w (outboundRequest p c specContent codeContents) = inl resp /\
             carriesText resp text /\
             json.Unmarshal (extractPayload text) json.zero = (r, None)).
  { destruct ctx as [c|]; [|rewrite Verify_nil_context in H; discriminate].
    rewrite Verify_unfold in H. cbn [fst] in H.
    destruct (http.respond w _) as [resp|err] eqn:Hresp; [|discriminate].
    destruct (http.ReadAll resp) as [body [err|]] eqn:Hbody; [discriminate |].
    destruct (http.StatusCode resp =? http.StatusOK)%Z eqn:Hs; [|discriminate].
    cbn [negb] in H. apply Z.eqb_eq in Hs.
    destruct (json.Unmarshal body json.zero) as [envelope [err|]] eqn:Hu;
      [discriminate |].
    destruct (RespError envelope) eqn:He; [discriminate |].
    destruct (RespContent envelope) as [|first others] eqn:Hc; [discriminate |].
    exists c, resp, (Text first). repeat split; try assumption.
    - now exists body, envelope, first, others.
    - rewrite parseVerificationResult_refines in H. unfold decodePayload in H.
      destruct (json.Unmarshal (extractPayload (Text first)) json.zero)
        as [r' [err|]]; congruence. }
  split; [exact Hex |].
  destruct Hex as (c & resp & text & _ & _ & _ & Hu).
  exact (Unmarshal_inRange _ _ _ Hu).
Qed.

Lemma C5_percentage_as_decoded_witness :
  (exists c resp text,
      Some http.Background = Some c /\
      http.respond (cannedWorld 200 overBody)
        (outboundRequest testProvider c "spec" []) = inl resp /\
      carriesText resp text /\
      json.Unmarshal (extractPayload text) json.zero
      = ({| MatchPercentage := 150; MatchedItems := []; UnmatchedItems := [];
            Notes := EmptyString |}, None)) /\
  (strconv.minInt64 <= 150 <= strconv.maxInt64)%Z.
Proof.
  apply (C5_percentage_as_decoded testProvider (Some http.Background) "spec" []
           (cannedWorld 200 overBody)
           {| MatchPercentage := 150; MatchedItems := []; UnmatchedItems := [];
              Notes := EmptyString |}).
  rewrite Verify_unfold. vm_compute. reflexivity.
Defined.

(** The claim C5 fails on a payload that holds 150: [Verify] succeeds and
    the percentage of its result is not between 0 and 100. *)
Lemma C5_counterexample :
  exists r,
    fst (Verify testProvider (Some http.Background) "spec" []
           (cannedWorld 200 overBody)) = (Some r, None) /\
    ~ (0 <= MatchPercentage r <= 100)%Z.
Proof.
  exists {| MatchPercentage := 150; MatchedItems := []; UnmatchedItems := [];
            Notes := EmptyString |}.
  split.
  - rewrite Verify_unfold. vm_compute. reflexivity.
  - cbn. lia.
Qed.

(** *** C9 *)

(** C9. A call of [Verify] by a constructed client (with a context that
    is not nil) sends exactly one request: a POST to the fixed URL, whose
    headers are the three of the spec (under the canonical form of their
    names, which is how a lookup by any spelling finds them), and whose
    body is the JSON object of the fixed model, the limit of 2000 tokens
    and one user message holding the prompt. *)
Theorem C9_outbound_request (key : string) (p : ClaudeProvider) (c : http.Context)
        (specContent : string) (codeContents : list (string * string))
        (w : http.World) :
  NewClaudeProvider key = (Some p, None) ->
  exists req,
    http.sent (snd (Verify p (Some c) specContent codeContents w))
    = (http.sent w ++ [req])%list /\
    http.Method req = "POST" /\
    http.URL req = "https://api.anthropic.com/v1/messages" /\
    http.Header_ req
    = <["Anthropic-Version" := ["2023-06-01"]]>
        (<["X-Api-Key" := [key]]> (<["Content-Type" := ["application/json"]]> ∅)) /\
    http.Get (http.Header_ req) "Content-Type" = "application/json" /\
    http.Get (http.Header_ req) "x-api-key" = key /\
    http.Get (http.Header_ req) "anthropic-version" = "2023-06-01" /\
    http.Body req
    = str.q "{'model':'claude-sonnet-4-20250514','max_tokens':2000,'messages':[{'role':'user','content':"
      ++ json.appendString (buildVerificationPrompt specContent codeContents)
      ++ "}]}".
Proof.
  intros Hnew.
  assert (Hp : p = {| apiKey := key; model := "claude-sonnet-4-20250514" |}).
  { unfold NewClaudeProvider in Hnew.
    destruct (String.eqb key EmptyString); [discriminate Hnew |].
    injection Hnew as <-. reflexivity. }
  exists (outboundRequest p c specContent codeContents).
  split; [now rewrite Verify_unfold |].
  subst p. unfold outboundRequest.
  cbn [http.Method http.URL http.Header_ http.Body apiKey model].
  generalize (json.appendString (buildVerificationPrompt specContent codeContents)).
  intros quoted.
  do 3 (split; [reflexivity |]).
  split; [|split; [|split; [|reflexivity]]].
  - unfold http.Get.
    change (http.CanonicalMIMEHeaderKey "Content-Type") with "Content-Type".
    rewrite lookup_insert_ne by discriminate.
    rewrite lookup_insert_ne by discriminate.
    now rewrite lookup_insert_eq.
  - unfold http.Get.
    change (http.CanonicalMIMEHeaderKey "x-api-key") with "X-Api-Key".
    rewrite lookup_insert_ne by discriminate.
    now rewrite lookup_insert_eq.
  - unfold http.Get.
    change (http.CanonicalMIMEHeaderKey "anthropic-version") with "Anthropic-Version".
    now rewrite lookup_insert_eq.
Qed.

Lemma C9_outbound_request_witness :
  exists req,
    http.sent (snd (Verify testProvider (Some http.Background) "spec" []
                      (cannedWorld 200 fencedBody)))
    = ([] ++ [req])%list /\
    http.Method req = "POST" /\
    http.URL req = "https://api.anthropic.com/v1/messages" /\
    http.Header_ req
    = <["Anthropic-Version" := ["2023-06-01"]]>
        (<["X-Api-Key" := ["sk-test"]]> (<["Content-Type" := ["application/json"]]> ∅)) /\
    http.Get (http.Header_ req) "Content-Type" = "application/json" /\
    http.Get (http.Header_ req) "x-api-key" = "sk-test" /\
    http.Get (http.Header_ req) "anthropic-version" = "2023-06-01" /\
    http.Body req
    = str.q "{'model':'claude-sonnet-4-20250514','max_tokens':2000,'messages':[{'role':'user','content':"
      ++ json.appendString (buildVerificationPrompt "spec" [])
      ++ "}]}".
Proof.
  apply (C9_outbound_request "sk-test" testProvider http.Background "spec" []
           (cannedWorld 200 fencedBody)).
  reflexivity.
Defined.

(** *** C10 *)




(** The interior of that fence alone does decode. *)
Example plainFenced_interior :
  decodePayload (str.q "{'matchPercentage':80,'matchedItems':[],'unmatchedItems':[],'notes':'ok'}")
  = (Some {| MatchPercentage := 80; MatchedItems := []; UnmatchedItems := [];
             Notes := "ok" |}, None).
Proof. vm_compute. reflexivity. Qed.

(** ** Further properties of [claude.go] *)

(** *** [buildVerificationPrompt] *)

(** The section that the prompt gives to one file. *)
Lemma fileSection_eq (path content : string) :
  fmt.Sprintf "
### %s
```
%s
```
" [fmt.Str path; fmt.Str content]
  = fileSection (path, content).
Proof. reflexivity. Qed.

Lemma codeSection_fold (files : list (string * string)) (acc : string) :
  List.fold_left
    (fun acc entry =>
       acc ++ fmt.Sprintf "
### %s
```
%s
```
" [fmt.Str entry.1; fmt.Str entry.2])
    files acc
  = acc ++ String.concat EmptyString (List.map fileSection files).
Proof.
  revert acc; induction files as [|[path content] files IH]; intros acc.
  - cbn. now rewrite append_nil_r.
  - cbn [List.fold_left List.map fst snd]. rewrite IH, fileSection_eq, append_assoc.
    f_equal. destruct files as [|f files]; [|reflexivity].
    cbn. now rewrite append_nil_r.
Qed.

Lemma promptFormat_eq (specContent codeSection : string) :
  fmt.Sprintf promptFormat
    [fmt.Str specContent; fmt.Str codeSection; fmt.Str "```"; fmt.Str "```"]
  = promptHead ++ specContent ++ promptMiddle ++ codeSection ++ promptTail.
Proof. reflexivity. Qed.

Lemma concat_cons (x : string) (l : list string) :
  String.concat EmptyString (x :: l) = x ++ String.concat EmptyString l.
Proof. destruct l; cbn; [now rewrite append_nil_r | reflexivity]. Qed.

Lemma concat_app (l1 l2 : list string) :
  String.concat EmptyString (l1 ++ l2)%list
  = String.concat EmptyString l1 ++ String.concat EmptyString l2.
Proof.
  induction l1 as [|x l1 IH]; [reflexivity |].
  change ((x :: l1) ++ l2)%list with (x :: (l1 ++ l2))%list.
  now rewrite !concat_cons, IH, append_assoc.
Qed.

Lemma prompt_layout_eq (specContent : string) (codeContents : list (string * string)) :
  buildVerificationPrompt specContent codeContents
  = promptHead ++ specContent ++ promptMiddle
    ++ String.concat EmptyString (List.map fileSection codeContents) ++ promptTail.
Proof.
  unfold buildVerificationPrompt. rewrite codeSection_fold.
  change (EmptyString ++ String.concat EmptyString (List.map fileSection codeContents))
    with (String.concat EmptyString (List.map fileSection codeContents)).
  generalize (String.concat EmptyString (List.map fileSection codeContents)).
  intros codeSection. apply promptFormat_eq.
Qed.

(** X1. The prompt is the fixed head, the spec verbatim, the fixed
    middle, one section per file in the order of iteration, and the fixed
    tail; nothing of the spec or of the files is escaped or dropped. *)
Theorem X1_prompt_layout (specContent : string)
        (codeContents : list (string * string)) :
  buildVerificationPrompt specContent codeContents
  = promptHead ++ specContent ++ promptMiddle
    ++ String.concat EmptyString (List.map fileSection codeContents) ++ promptTail.
Proof. apply prompt_layout_eq. Qed.

(** X2. The prompt contains the spec text verbatim. *)
Theorem X2_prompt_contains_spec (specContent : string)
        (codeContents : list (string * string)) :
  str.Contains (buildVerificationPrompt specContent codeContents) specContent = true.
Proof. rewrite prompt_layout_eq. apply Contains_app. Qed.

(** X3. For every file of the map, the prompt contains its section: a
    heading with the path, then the content between two fences. *)
Theorem X3_prompt_contains_file (specContent : string)
        (codeContents : list (string * string)) (path content : string) :
  List.In (path, content) codeContents ->
  str.Contains (buildVerificationPrompt specContent codeContents)
    ("
### " ++ path ++ "
```
" ++ content ++ "
```
") = true.
Proof.
  intros Hin. apply List.in_split in Hin as (l1 & l2 & ->).
  rewrite prompt_layout_eq, List.map_app, concat_app.
  change (List.map fileSection ((path, content) :: l2))
    with (fileSection (path, content) :: List.map fileSection l2).
  rewrite concat_cons.
  change (fileSection (path, content)) with ("
### " ++ path ++ "
```
" ++ content ++ "
```
").
  set (section := "
### " ++ path ++ "
```
" ++ content ++ "
```
").
  replace (promptHead ++ specContent ++ promptMiddle
           ++ (String.concat EmptyString (List.map fileSection l1)
               ++ section ++ String.concat EmptyString (List.map fileSection l2))
           ++ promptTail)
    with ((promptHead ++ specContent ++ promptMiddle
           ++ String.concat EmptyString (List.map fileSection l1))
          ++ section
          ++ (String.concat EmptyString (List.map fileSection l2) ++ promptTail))
    by now rewrite !append_assoc.
  apply Contains_app.
Qed.

Lemma X3_prompt_contains_file_witness :
  str.Contains (buildVerificationPrompt "spec" [("a.go", "package a"); ("b.go", "package b")])
    ("
### " ++ "b.go" ++ "
```
" ++ "package b" ++ "
```
") = true.
Proof.
  apply (X3_prompt_contains_file "spec" [("a.go", "package a"); ("b.go", "package b")]
           "b.go" "package b").
  right. left. reflexivity.
Defined.

(** X4. Nothing is escaped: one file whose content holds a closing
    fence, a heading and an opening fence gives the same prompt as two
    files.  The model cannot tell the two inputs apart. *)
Theorem X4_prompt_ambiguous (specContent path1 content1 path2 content2 : string) :
  buildVerificationPrompt specContent
    [(path1, content1 ++ "
```

### " ++ path2 ++ "
```
" ++ content2)]
  = buildVerificationPrompt specContent [(path1, content1); (path2, content2)].
Proof.
  rewrite !prompt_layout_eq. do 3 f_equal.
  cbn [List.map]. rewrite !concat_cons. unfold fileSection. cbn [fst snd].
  f_equal. cbn [String.concat]. rewrite !append_assoc. reflexivity.
Qed.

(** *** [parseVerificationResult] *)

Lemma decodePayload_cases (payload : string) :
  (exists r, decodePayload payload = (Some r, None)) \/
  (exists e, decodePayload payload = (None, Some e)).
Proof.
  unfold decodePayload.
  destruct (json.Unmarshal payload json.zero) as [r [e|]]; eauto.
Qed.

(** X5. For every text, the payload that [parseVerificationResult] hands
    to the decoder is: the text between the first occurrence of the label
    and the next triple backquote after it, without the spaces around it;
    or the entire text, when the label does not occur or no triple
    backquote follows it.  The outcome is the decoding of that payload. *)
Theorem X5_extraction_characterised (text : string) :
  parseVerificationResult text
  = match str.Index text "```json" with
    | None => decodePayload text
    | Some i =>
        match str.Index (str.drop (i + 7) text) "```" with
        | None => decodePayload text
        | Some j =>
            decodePayload
              (str.TrimFunc regexp.perl_space (str.take j (str.drop (i + 7) text)))
        end
    end.
Proof.
  rewrite parseVerificationResult_refines. unfold extractPayload.
  destruct (str.Index text "```json"); [|reflexivity].
  now destruct (str.Index (str.drop _ text) "```").
Qed.

(** [parseVerificationResult] returns either a result and no error, or an
    error and no result. *)
Lemma parse_result_or_error (text : string) :
  (exists r, parseVerificationResult text = (Some r, None)) \/
  (exists e, parseVerificationResult text = (None, Some e)).
Proof. rewrite parseVerificationResult_refines. apply decodePayload_cases. Qed.

Lemma HasPrefix_length (x sub : string) :
  str.HasPrefix x sub = true -> String.length sub <= String.length x.
Proof.
  revert x; induction sub as [|d sub IH]; intros x; simpl; [lia |].
  destruct x as [|c x]; [discriminate |].
  destruct (Ascii.eqb c d); [|discriminate]. simpl.
  intros H. specialize (IH _ H). lia.
Qed.

Lemma HasPrefix_app_long (x t sub : string) :
  String.length sub <= String.length x ->
  str.HasPrefix (x ++ t) sub = str.HasPrefix x sub.
Proof.
  revert x; induction sub as [|d sub IH]; intros x H; [reflexivity |].
  destruct x as [|c x]; simpl in *; [lia |].
  destruct (Ascii.eqb c d); [|reflexivity]. simpl.
  apply IH. lia.
Qed.

Lemma Index_Some_length (x sub : string) (n : nat) :
  str.Index x sub = Some n -> n + String.length sub <= String.length x.
Proof.
  revert n; induction x as [|c x IH]; intros n H.
  - simpl in H. destruct (str.HasPrefix EmptyString sub) eqn:Hp; [|discriminate].
    injection H as <-. apply HasPrefix_length in Hp. simpl in *. lia.
  - rewrite Index_cons in H.
    destruct (str.HasPrefix (String c x) sub) eqn:Hp.
    + injection H as <-. apply HasPrefix_length in Hp. simpl in *. lia.
    + destruct (str.Index x sub) as [m|]; [|discriminate].
      simpl in H. injection H as <-. specialize (IH m eq_refl). simpl. lia.
Qed.

(** The first occurrence stays the first when the string is extended. *)
Lemma Index_extend (x t sub : string) (n : nat) :
  str.Index x sub = Some n -> str.Index (x ++ t) sub = Some n.
Proof.
  revert n; induction x as [|c x IH]; intros n H.
  - simpl in H. destruct (str.HasPrefix EmptyString sub) eqn:Hp; [|discriminate].
    injection H as <-. destruct sub; [|discriminate].
    destruct t; reflexivity.
  - assert (Hlen := Index_Some_length _ _ _ H).
    rewrite Index_cons in H.
    change (String c x ++ t) with (String c (x ++ t)). rewrite Index_cons.
    change (String c (x ++ t)) with (String c x ++ t).
    destruct (str.HasPrefix (String c x) sub) eqn:Hp.
    + injection H as <-.
      rewrite HasPrefix_app_long, Hp; [reflexivity |].
      now apply HasPrefix_length.
    + destruct (str.Index x sub) as [m|] eqn:Hi; [|discriminate].
      simpl in H. injection H as <-.
      rewrite HasPrefix_app_long, Hp by lia.
      now rewrite (IH m eq_refl).
Qed.

(** X6. What precedes the fenced block and what follows its closing
    fence has no effect: when the label first occurs right after [pre]
    and the next triple backquote comes right after [interior], the
    outcome is the decoding of [interior] without the spaces around it,
    whatever follows. *)
Theorem X6_surroundings_ignored (pre interior post : string) :
  str.Index (pre ++ "```json") "```json" = Some (String.length pre) ->
  str.Index (interior ++ "```") "```" = Some (String.length interior) ->
  parseVerificationResult (pre ++ "```json" ++ interior ++ "```" ++ post)
  = decodePayload (str.TrimFunc regexp.perl_space interior).
Proof.
  intros Hpre Hint.
  rewrite parseVerificationResult_refines, extractPayload_fenced; [reflexivity | |].
  - rewrite <- append_assoc. now apply Index_extend.
  - rewrite <- append_assoc. now apply Index_extend.
Qed.

Lemma X6_surroundings_ignored_witness :
  parseVerificationResult
    ("Here is the result: " ++ "```json" ++ str.q " {'notes':'ok'} " ++ "```" ++ " Anything else?")
  = decodePayload (str.TrimFunc regexp.perl_space (str.q " {'notes':'ok'} ")).
Proof.
  apply (X6_surroundings_ignored "Here is the result: " (str.q " {'notes':'ok'} ")
           " Anything else?"); reflexivity.
Defined.

(** X7. A block that is opened with the label but never closed (an
    answer cut short, say) does not match: the entire text goes to the
    decoder, and when the label stands at the start of a line the
    extraction fails. *)
Theorem X7_unclosed_fence (pre rest : string) :
  str.Index (pre ++ "```json" ++ rest) "```json" = Some (String.length pre) ->
  str.Contains rest "```" = false ->
  parseVerificationResult (pre ++ "```json" ++ rest)
  = decodePayload (pre ++ "```json" ++ rest) /\
  (pre = EmptyString \/ (exists before, pre = before ++ String "010" EmptyString) ->
   exists e, parseVerificationResult (pre ++ "```json" ++ rest) = (None, Some e)).
Proof.
  intros Hpre Hno.
  assert (H : parseVerificationResult (pre ++ "```json" ++ rest)
              = decodePayload (pre ++ "```json" ++ rest)).
  { rewrite parseVerificationResult_eq.
    now rewrite (FindStringSubmatch_unclosed pre rest Hpre Hno). }
  split; [exact H |]. intros Hline. rewrite H.
  assert (Hf : fenceAtLineStart (pre ++ "```json" ++ rest)).
  { destruct Hline as [-> | [before ->]].
    - left. now exists ("json" ++ rest).
    - right. exists before, ("json" ++ rest). now rewrite append_assoc. }
  destruct (scan_fence_line _ Hf) as [e He].
  eexists. apply decodePayload_fail with json.zero.
  unfold json.Unmarshal. now rewrite He.
Qed.

Lemma X7_unclosed_fence_witness :
  parseVerificationResult (EmptyString ++ "```json" ++ str.q "
{'matchPercentage':80,'notes':'tr")
  = decodePayload (EmptyString ++ "```json" ++ str.q "
{'matchPercentage':80,'notes':'tr") /\
  (EmptyString = EmptyString \/ (exists before, EmptyString = before ++ String "010" EmptyString) ->
   exists e, parseVerificationResult (EmptyString ++ "```json" ++ str.q "
{'matchPercentage':80,'notes':'tr") = (None, Some e)).
Proof.
  apply (X7_unclosed_fence EmptyString (str.q "
{'matchPercentage':80,'notes':'tr")); reflexivity.
Defined.

(** *** [Verify] *)

(** X8. When the request cannot be sent (the transport fails, or the
    context is cancelled on the way), [Verify] returns no result and the
    error "failed to send request: ..." that wraps the cause. *)
Theorem X8_transport_failure (p : ClaudeProvider) (c : http.Context)
        (specContent : string) (codeContents : list (string * string))
        (w : http.World) (cause : error) :
  http.respond w (outboundRequest p c specContent codeContents) = inr cause ->
  exists e,
    fst (Verify p (Some c) specContent codeContents w) = (None, Some e) /\
    Error e = "failed to send request: " ++ Error cause /\
    Unwrap e = Some cause.
Proof.
  intros H. rewrite Verify_unfold. cbn [fst]. rewrite H.
  eexists. split; [reflexivity |]. split; reflexivity.
Qed.

Lemma X8_transport_failure_witness :
  exists e,
    fst (Verify testProvider (Some http.Background) "spec" []
           {| http.respond := fun _ => inr (transportError "context canceled");
              http.sent := [] |}) = (None, Some e) /\
    Error e = "failed to send request: " ++ Error (transportError "context canceled") /\
    Unwrap e = Some (transportError "context canceled").
Proof.
  apply (X8_transport_failure testProvider http.Background "spec" []
           {| http.respond := fun _ => inr (transportError "context canceled");
              http.sent := [] |}
           (transportError "context canceled")).
  reflexivity.
Defined.

(** X9. When reading the body fails, [Verify] returns no result and the
    error "failed to read response: ..." that wraps the cause, whatever
    the status code and whatever was read before the failure. *)
Theorem X9_read_failure (p : ClaudeProvider) (c : http.Context)
        (specContent : string) (codeContents : list (string * string))
        (w : http.World) (resp : http.Response) (partial : string) (cause : error) :
  http.respond w (outboundRequest p c specContent codeContents) = inl resp ->
  http.ReadAll resp = (partial, Some cause) ->
  exists e,
    fst (Verify p (Some c) specContent codeContents w) = (None, Some e) /\
    Error e = "failed to read response: " ++ Error cause /\
    Unwrap e = Some cause.
Proof.
  intros H Hr. rewrite Verify_unfold. cbn [fst]. rewrite H, Hr.
  eexists. split; [reflexivity |]. split; reflexivity.
Qed.

Lemma X9_read_failure_witness :
  exists e,
    fst (Verify testProvider (Some http.Background) "spec" []
           {| http.respond :=
                fun _ => inl {| http.StatusCode := 200;
                                http.ReadAll := ("{", Some (transportError "unexpected EOF")) |};
              http.sent := [] |}) = (None, Some e) /\
    Error e = "failed to read response: " ++ Error (transportError "unexpected EOF") /\
    Unwrap e = Some (transportError "unexpected EOF").
Proof.
  apply (X9_read_failure testProvider http.Background "spec" []
           {| http.respond :=
                fun _ => inl {| http.StatusCode := 200;
                                http.ReadAll := ("{", Some (transportError "unexpected EOF")) |};
              http.sent := [] |}
           {| http.StatusCode := 200;
              http.ReadAll := ("{", Some (transportError "unexpected EOF")) |}
           "{" (transportError "unexpected EOF")); reflexivity.
Defined.

(** X10. When a response with status 200 has a body that does not decode
    to the envelope, [Verify] returns no result and the error "failed to
    parse response: ..." that wraps the decoder's error. *)
Theorem X10_envelope_rejected (p : ClaudeProvider) (c : http.Context)
        (specContent : string) (codeContents : list (string * string))
        (w : http.World) (resp : http.Response) (body : string)
        (partial : claudeResponse) (cause : error) :
  http.respond w (outboundRequest p c specContent codeContents) = inl resp ->
  http.ReadAll resp = (body, None) ->
  http.StatusCode resp = http.StatusOK ->
  json.Unmarshal body json.zero = (partial, Some cause) ->
  exists e,
    fst (Verify p (Some c) specContent codeContents w) = (None, Some e) /\
    Error e = "failed to parse response: " ++ Error cause /\
    Unwrap e = Some cause.
Proof.
  intros H Hr Hs Hu. rewrite Verify_unfold. cbn [fst]. rewrite H, Hr, Hs.
  change (negb (http.StatusOK =? http.StatusOK)%Z) with false. cbv iota.
  rewrite Hu. eexists. split; [reflexivity |]. split; reflexivity.
Qed.

Lemma X10_envelope_rejected_witness :
  exists e,
    fst (Verify testProvider (Some http.Background) "spec" []
           (cannedWorld 200 "<html>")) = (None, Some e) /\
    Error e = "failed to parse response: "
              ++ Error (SyntaxError "invalid character '<' looking for beginning of value" 1) /\
    Unwrap e = Some (SyntaxError "invalid character '<' looking for beginning of value" 1).
Proof.
  apply (X10_envelope_rejected testProvider http.Background "spec" []
           (cannedWorld 200 "<html>")
           {| http.StatusCode := 200; http.ReadAll := ("<html>", None) |}
           "<html>" json.zero
           (SyntaxError "invalid character '<' looking for beginning of value" 1));
    reflexivity.
Defined.

(** X11. With a nil context, [Verify] fails with "failed to create
    request: net/http: nil Context" before anything is sent: the world is
    left as it was. *)
Theorem X11_nil_context (p : ClaudeProvider) (specContent : string)
        (codeContents : list (string * string)) (w : http.World) :
  Verify p None specContent codeContents w
  = ((None,
      Some (wrapError "failed to create request: net/http: nil Context"
              (errorString "net/http: nil Context"))), w).
Proof. apply Verify_nil_context. Qed.

(** X12. A call sends the request once and never again, whatever the
    answer: after the call, the log of the world holds the requests it
    held before followed by the one request of the call (none with a nil
    context), and the world answers as before. *)
Theorem X12_single_request (p : ClaudeProvider) (ctx : option http.Context)
        (specContent : string) (codeContents : list (string * string))
        (w : http.World) :
  http.sent (snd (Verify p ctx specContent codeContents w))
  = (http.sent w
     ++ match ctx with
        | Some c => [outboundRequest p c specContent codeContents]
        | None => []
        end)%list /\
  http.respond (snd (Verify p ctx specContent codeContents w)) = http.respond w.
Proof.
  destruct ctx as [c|].
  - rewrite Verify_unfold. split; reflexivity.
  - rewrite Verify_nil_context. cbn [snd]. now rewrite List.app_nil_r.
Qed.

(** X13. [Verify] returns either a result and no error, or an error and
    no result. *)
Theorem X13_result_or_error (p : ClaudeProvider) (ctx : option http.Context)
        (specContent : string) (codeContents : list (string * string))
        (w : http.World) :
  (exists r, fst (Verify p ctx specContent codeContents w) = (Some r, None)) \/
  (exists e, fst (Verify p ctx specContent codeContents w) = (None, Some e)).
Proof.
  destruct ctx as [c|]; [|rewrite Verify_nil_context; eauto].
  rewrite Verify_unfold. cbn [fst].
  destruct (http.respond w _) as [resp|err]; [|eauto].
  destruct (http.ReadAll resp) as [body [err|]]; [eauto |].
  destruct (negb _); [eauto |].
  destruct (json.Unmarshal body json.zero) as [envelope [err|]]; [eauto |].
  destruct (RespError envelope); [eauto |].
  destruct (RespContent envelope) as [|first others]; [eauto |].
  rewrite parseVerificationResult_refines. apply decodePayload_cases.
Qed.


